(** * The New-Model tool parser (watt.py)

    A shallow embedding of [NewModelToolParser]: the two patterns
    [_JSON_RE] and [_PY_RE], the non-streaming [extract_tool_calls] and the
    streaming [extract_tool_calls_streaming], together with the parts of
    Python's [str], [re] and [json] they call. *)

From Stdlib Require Import List NArith ZArith String Ascii Bool Lia.
Import ListNotations.

(** ** Python strings

    A [str] is a sequence of code points. *)

Definition str : Type := list N.

(** Literals are written as Rocq strings, with a backquote standing for the
    double quote U+0022. *)
Definition code (a : ascii) : N :=
  if Ascii.eqb a "`" then 34%N else N_of_ascii a.

Fixpoint py (s : string) : str :=
  match s with
  | EmptyString => []
  | String a t => code a :: py t
  end.

Module Str.

Definition chr (a : ascii) : N := code a.

Definition eqb (s t : str) : bool :=
  if list_eq_dec N.eq_dec s t then true else false.

(** [s.startswith(p)], returning what follows the prefix. *)
Fixpoint strip_prefix (p s : str) : option str :=
  match p, s with
  | [], _ => Some s
  | a :: p', b :: s' => if N.eqb a b then strip_prefix p' s' else None
  | _ :: _, [] => None
  end.

Definition startswith (p s : str) : bool :=
  match strip_prefix p s with Some _ => true | None => false end.

(** [sub in s]. *)
Fixpoint contains (sub s : str) : bool :=
  startswith sub s ||
  match s with
  | [] => false
  | _ :: s' => contains sub s'
  end.

(** [str.isspace] of one code point: the interpreter's white space table
    ([_PyUnicode_IsWhitespace]). *)
Definition isspace (c : N) : bool :=
  ((9 <=? c) && (c <=? 13) || (28 <=? c) && (c <=? 32)
   || (c =? 133) || (c =? 160) || (c =? 5760)
   || (8192 <=? c) && (c <=? 8202)
   || (c =? 8232) || (c =? 8233) || (c =? 8239) || (c =? 8287)
   || (c =? 12288))%N.

Fixpoint lstrip (p : N -> bool) (s : str) : str :=
  match s with
  | c :: s' => if p c then lstrip p s' else s
  | [] => []
  end.

Definition rstrip (p : N -> bool) (s : str) : str :=
  rev (lstrip p (rev s)).

(** [s.strip()] *)
Definition strip (s : str) : str := rstrip isspace (lstrip isspace s).

(** [s.strip(chars)] *)
Definition strip_chars (chars s : str) : str :=
  let p c := existsb (N.eqb c) chars in
  rstrip p (lstrip p s).

(** [s.split(sep)] for a separator of one character; [cur] holds the
    piece being read, reversed. *)
Fixpoint split_from (sep : N) (cur : str) (s : str) : list str :=
  match s with
  | [] => [rev cur]
  | c :: s' =>
      if N.eqb c sep then rev cur :: split_from sep [] s'
      else split_from sep (c :: cur) s'
  end.

Definition split (sep : N) (s : str) : list str := split_from sep [] s.

(** [s.split(sep, 1)]: at most one cut, at the first separator. *)
Fixpoint split1_from (sep : N) (cur : str) (s : str) : list str :=
  match s with
  | [] => [rev cur]
  | c :: s' =>
      if N.eqb c sep then [rev cur; s']
      else split1_from sep (c :: cur) s'
  end.

Definition split1 (sep : N) (s : str) : list str := split1_from sep [] s.

End Str.

(** ** Regular expressions ([re])

    The fragment of [re] the two patterns are written in: literals, the
    greedy [*] and [+] and the lazy [*?] of a class of characters, named
    groups and concatenation.  Matching is the backtracking
    search of [re]: alternatives are tried in priority order and the first
    success is kept. *)

Module Re.

Inductive cset : Type :=
| Any                 (* [.] under [re.DOTALL] *)
| NotChr (c : N)      (* a negated class of one character *)
| Space               (* \s *)
| Word.               (* \w *)

Inductive re : Type :=
| Lit (l : str)
| Star (c : cset)
| Plus (c : cset)
| LazyStar (c : cset)
| Group (name : string) (r : re)
| Cat (r1 r2 : re).

Definition groups : Type := list (string * str).

Record Match : Type := mkMatch {
  m_start : nat;
  m_end : nat;
  m_groups : groups
}.

Fixpoint lookup (name : string) (g : groups) : option str :=
  match g with
  | [] => None
  | (n, t) :: g' => if String.eqb n name then Some t else lookup name g'
  end.

(** [m.group(name)]; a group that took no part in the match reads as the
    empty text here (in [_JSON_RE] and [_PY_RE] every group takes part in
    every match). *)
Definition group (m : Match) (name : string) : str :=
  match lookup name (m_groups m) with
  | Some t => t
  | None => []
  end.

Definition ascii_isalnum (c : N) : bool :=
  ((48 <=? c) && (c <=? 57) || (65 <=? c) && (c <=? 90)
   || (97 <=? c) && (c <=? 122))%N.

Section Engine.

(** [str.isalnum] of a code point outside ASCII: the interpreter's
    Unicode database, not a part of the parser. *)
Variable unicode_isalnum : N -> bool.

Definition isalnum (c : N) : bool :=
  if (c <? 128)%N then ascii_isalnum c else unicode_isalnum c.

Definition in_cset (cs : cset) (c : N) : bool :=
  match cs with
  | Any => true
  | NotChr x => negb (N.eqb c x)
  | Space => Str.isspace c
  | Word => isalnum c || N.eqb c 95
  end.

Definition answer : Type := option (str * groups).

(** Greedy repetition: take one more character first, give back on
    failure. *)
Fixpoint greedy (p : N -> bool) (s : str) (k : str -> answer) : answer :=
  match s with
  | c :: s' =>
      if p c then
        match greedy p s' k with
        | Some a => Some a
        | None => k s
        end
      else k s
  | [] => k s
  end.

(** Lazy repetition: try to go on first, take one more character on
    failure. *)
Fixpoint lazy (p : N -> bool) (s : str) (k : str -> answer) : answer :=
  match k s with
  | Some a => Some a
  | None =>
      match s with
      | c :: s' => if p c then lazy p s' k else None
      | [] => None
      end
  end.

Fixpoint run (r : re) (s : str) (g : groups)
         (k : str -> groups -> answer) : answer :=
  match r with
  | Lit l =>
      match Str.strip_prefix l s with
      | Some s' => k s' g
      | None => None
      end
  | Star c => greedy (in_cset c) s (fun s' => k s' g)
  | Plus c =>
      match s with
      | x :: s' =>
          if in_cset c x then greedy (in_cset c) s' (fun s'' => k s'' g)
          else None
      | [] => None
      end
  | LazyStar c => lazy (in_cset c) s (fun s' => k s' g)
  | Group name r1 =>
      run r1 s g
          (fun s' g' =>
             k s' ((name, firstn (List.length s - List.length s') s) :: g'))
  | Cat r1 r2 => run r1 s g (fun s' g' => run r2 s' g' k)
  end.

(** One attempt at the start of [s]: what is left after the match and
    the groups. *)
Definition match_here (r : re) (s : str) : answer :=
  run r s [] (fun s' g => Some (s', g)).

(** [pattern.search]: the attempts go from left to right, [pos] is the
    index of [s] in the whole text. *)
Fixpoint search_from (r : re) (pos : nat) (s : str) : option Match :=
  match match_here r s with
  | Some (rest, g) =>
      Some (mkMatch pos (pos + (List.length s - List.length rest)) g)
  | None =>
      match s with
      | [] => None
      | _ :: s' => search_from r (S pos) s'
      end
  end.

Definition search (r : re) (s : str) : option Match := search_from r 0 s.

End Engine.

(** The names of the groups of a pattern, and what it is for a group to be
    set in the groups of a match. *)
Fixpoint names (r : re) : list string :=
  match r with
  | Group n r1 => n :: names r1
  | Cat r1 r2 => names r1 ++ names r2
  | _ => []
  end.

Definition bound (n : string) (g : groups) : Prop := lookup n g <> None.

Infix "+++" := Cat (right associativity, at level 60).

End Re.

Import Re.

(** ** Results and exceptions *)

Inductive exn : Type :=
| JSONDecodeError   (* json.JSONDecodeError *)
| ValueError.       (* a plain ValueError: too few values to unpack *)

Inductive result (A : Type) : Type :=
| Return (a : A)
| Raise (e : exn).

Arguments Return {A} a.
Arguments Raise {A} e.

Definition bind {A B : Type} (x : result A) (f : A -> result B) : result B :=
  match x with
  | Return a => f a
  | Raise e => Raise e
  end.

Notation "x <- c1 ; c2" := (bind c1 (fun x => c2))
  (at level 61, c1 at next level, right associativity).

(** ** JSON ([json.loads])

    The values [json.loads] builds and its decoder: the scanner
    ([scan_once]), [scanstring], the object and array loops, and the
    [Extra data] check of [decode].  A [float] is kept as the literal that
    is handed to [float()]; limits of the interpreter (recursion depth, the
    digits of an [int]) are outside the model. *)

Module Json.

Unset Elimination Schemes.

Inductive value : Type :=
| VNone
| VBool (b : bool)
| VInt (z : Z)
| VFloat (literal : str)
| VStr (s : str)
| VList (l : list value)
| VDict (d : list (str * value)).

Set Elimination Schemes.

Definition dict : Type := list (str * value).

(** [d[k] = v]: a key already present keeps its place. *)
Fixpoint dict_set (d : dict) (k : str) (v : value) : dict :=
  match d with
  | [] => [(k, v)]
  | (k', v') :: d' =>
      if Str.eqb k' k then (k', v) :: d' else (k', v') :: dict_set d' k v
  end.

Local Open Scope N_scope.

Definition is_ws (c : N) : bool :=
  (c =? 32) || (c =? 9) || (c =? 10) || (c =? 13).

Definition skip_ws (s : str) : str := Str.lstrip is_ws s.

Definition is_digit (c : N) : bool := (48 <=? c) && (c <=? 57).

Definition hex_digit (c : N) : option N :=
  if (48 <=? c) && (c <=? 57) then Some (c - 48)
  else if (97 <=? c) && (c <=? 102) then Some (c - 87)
  else if (65 <=? c) && (c <=? 70) then Some (c - 55)
  else None.

Definition hex4 (a b c d : N) : option N :=
  match hex_digit a, hex_digit b, hex_digit c, hex_digit d with
  | Some x, Some y, Some z, Some w => Some (((x * 16 + y) * 16 + z) * 16 + w)
  | _, _, _, _ => None
  end.

(** The table [BACKSLASH] of the one-letter escapes. *)
Definition escape (c : N) : option N :=
  if c =? 34 then Some 34            (* the double quote *)
  else if c =? 92 then Some 92       (* the backslash *)
  else if c =? 47 then Some 47       (* / *)
  else if c =? 98 then Some 8        (* b *)
  else if c =? 102 then Some 12      (* f *)
  else if c =? 110 then Some 10      (* n *)
  else if c =? 114 then Some 13      (* r *)
  else if c =? 116 then Some 9       (* t *)
  else None.

Definition is_high_surrogate (u : N) : bool := (55296 <=? u) && (u <=? 56319).
Definition is_low_surrogate (u : N) : bool := (56320 <=? u) && (u <=? 57343).
Definition join_surrogates (u u2 : N) : N :=
  65536 + ((u - 55296) * 1024 + (u2 - 56320)).

(** [scanstring(s, end, strict=True)] from the character after the
    opening quote: the decoded text and what follows the closing quote;
    [acc] is the text read so far, reversed. *)
Fixpoint scanstring (s : str) (acc : str) : option (str * str) :=
  match s with
  | [] => None
  | c :: t =>
      if c =? 34 then Some (rev acc, t)
      else if c =? 92 then
        match t with
        | [] => None
        | e :: t1 =>
            if e =? 117 then
              match t1 with
              | h1 :: h2 :: h3 :: h4 :: t2 =>
                  match hex4 h1 h2 h3 h4 with
                  | None => None
                  | Some u =>
                      if is_high_surrogate u then
                        match t2 with
                        | b :: l :: g1 :: g2 :: g3 :: g4 :: t3 =>
                            if (b =? 92) && (l =? 117) then
                              match hex4 g1 g2 g3 g4 with
                              | None => None
                              | Some u2 =>
                                  if is_low_surrogate u2
                                  then scanstring t3 (join_surrogates u u2 :: acc)
                                  else scanstring t2 (u :: acc)
                              end
                            else scanstring t2 (u :: acc)
                        | _ => scanstring t2 (u :: acc)
                        end
                      else scanstring t2 (u :: acc)
                  end
              | _ => None
              end
            else
              match escape e with
              | Some x => scanstring t1 (x :: acc)
              | None => None
              end
        end
      else if c <=? 31 then None
      else scanstring t (c :: acc)
  end.

Fixpoint span (p : N -> bool) (s : str) : str * str :=
  match s with
  | c :: t => if p c then let (a, r) := span p t in (c :: a, r) else ([], s)
  | [] => ([], [])
  end.

Definition int_of_digits (ds : str) : Z :=
  fold_left (fun a c => (a * 10 + Z.of_N (c - 48))%Z) ds 0%Z.

(** The number of [scan_once]: an optional minus sign and an integer part
    (a zero, or digits that do not start with a zero), then an optional
    fraction (a dot and digits) and an optional exponent (e or E, an
    optional sign, digits); an [int] when there is neither fraction nor
    exponent. *)
Definition match_number (s : str) : option (value * str) :=
  let '(sign, s1) :=
    match s with
    | c :: t => if c =? 45 then ([c], t) else ([], s)
    | [] => ([], s)
    end in
  match s1 with
  | [] => None
  | c :: t =>
      let integer :=
        if c =? 48 then Some ([c], t)
        else if is_digit c then let (ds, r) := span is_digit t in Some (c :: ds, r)
        else None in
      match integer with
      | None => None
      | Some (ip, r) =>
          let '(frac, r1) :=
            match r with
            | d :: x :: r' =>
                if (d =? 46) && is_digit x
                then let (ds, r'') := span is_digit r' in (d :: x :: ds, r'')
                else ([], r)
            | _ => ([], r)
            end in
          let '(exp, r2) :=
            match r1 with
            | e :: r' =>
                if (e =? 101) || (e =? 69) then
                  let '(sg, r'') :=
                    match r' with
                    | c' :: r3 =>
                        if (c' =? 45) || (c' =? 43) then ([c'], r3) else ([], r')
                    | [] => ([], r')
                    end in
                  let (ds, r4) := span is_digit r'' in
                  match ds with
                  | [] => ([], r1)
                  | _ :: _ => (e :: sg ++ ds, r4)
                  end
                else ([], r1)
            | [] => ([], r1)
            end in
          match frac, exp with
          | [], [] =>
              let z := int_of_digits ip in
              Some (VInt (match sign with
                          | [] => z
                          | _ :: _ => Z.opp z
                          end), r2)
          | _, _ => Some (VFloat (sign ++ ip ++ frac ++ exp), r2)
          end
      end
  end.

(** The words of [scan_once]; the order of the tests is that of the
    scanner, a number is tried when no word fits. *)
Definition scan_word (s : str) : option (value * str) :=
  match Str.strip_prefix (py "null") s with
  | Some r => Some (VNone, r)
  | None =>
  match Str.strip_prefix (py "true") s with
  | Some r => Some (VBool true, r)
  | None =>
  match Str.strip_prefix (py "false") s with
  | Some r => Some (VBool false, r)
  | None =>
  match match_number s with
  | Some a => Some a
  | None =>
  match Str.strip_prefix (py "NaN") s with
  | Some r => Some (VFloat (py "NaN"), r)
  | None =>
  match Str.strip_prefix (py "Infinity") s with
  | Some r => Some (VFloat (py "Infinity"), r)
  | None =>
  match Str.strip_prefix (py "-Infinity") s with
  | Some r => Some (VFloat (py "-Infinity"), r)
  | None => None
  end end end end end end end.

Inductive scanned : Type :=
| Parsed (v : value) (rest : str)
| Stop          (* StopIteration or an error of the decoder: no value *)
| OutOfFuel.

(** [scan_once], [JSONObject] after the opening brace and white space,
    [JSONArray] after the opening bracket and white space.  Every call
    is on a text no longer than the one before, and on a shorter one
    every second call; [fuel] bounds the depth of the calls. *)
Fixpoint scan_once (fuel : nat) (s : str) : scanned :=
  match fuel with
  | O => OutOfFuel
  | S n =>
      match s with
      | [] => Stop
      | c :: t =>
          if c =? 34 then
            match scanstring t [] with
            | Some (x, r) => Parsed (VStr x) r
            | None => Stop
            end
          else if c =? 123 then
            match skip_ws t with
            | [] => Stop
            | c' :: t' =>
                if c' =? 125 then Parsed (VDict []) t'
                else JSONObject n (c' :: t') []
            end
          else if c =? 91 then
            match skip_ws t with
            | [] => Stop
            | c' :: t' =>
                if c' =? 93 then Parsed (VList []) t'
                else JSONArray n (c' :: t') []
            end
          else
            match scan_word s with
            | Some (v, r) => Parsed v r
            | None => Stop
            end
      end
  end
with JSONObject (fuel : nat) (s : str) (d : dict) : scanned :=
  match fuel with
  | O => OutOfFuel
  | S n =>
      match s with
      | [] => Stop
      | q :: t =>
          if q =? 34 then
            match scanstring t [] with
            | None => Stop
            | Some (key, r) =>
                match skip_ws r with
                | [] => Stop
                | colon :: r1 =>
                    if colon =? 58 then
                      match scan_once n (skip_ws r1) with
                      | Parsed v r2 =>
                          let d' := dict_set d key v in
                          match skip_ws r2 with
                          | [] => Stop
                          | e :: r3 =>
                              if e =? 125 then Parsed (VDict d') r3
                              else if e =? 44 then JSONObject n (skip_ws r3) d'
                              else Stop
                          end
                      | Stop => Stop
                      | OutOfFuel => OutOfFuel
                      end
                    else Stop
                end
            end
          else Stop
      end
  end
with JSONArray (fuel : nat) (s : str) (acc : list value) : scanned :=
  match fuel with
  | O => OutOfFuel
  | S n =>
      match scan_once n s with
      | Parsed v r =>
          match skip_ws r with
          | [] => Stop
          | e :: r1 =>
              if e =? 93 then Parsed (VList (rev (v :: acc))) r1
              else if e =? 44 then JSONArray n (skip_ws r1) (v :: acc)
              else Stop
          end
      | Stop => Stop
      | OutOfFuel => OutOfFuel
      end
  end.

(** [json.loads(s)]: white space, one value, white space, the end.  The
    fuel is always enough ([scan_once_fuel] below). *)
Definition loads (s : str) : result value :=
  let s0 := skip_ws s in
  match scan_once (S (2 * List.length s0)) s0 with
  | Parsed v r =>
      match skip_ws r with
      | [] => Return v
      | _ :: _ => Raise JSONDecodeError
      end
  | Stop => Raise JSONDecodeError
  | OutOfFuel => Raise JSONDecodeError
  end.

End Json.

Import Json.

(** ** The protocol objects

    The classes of the host's protocol, as the records of the fields the
    parser reads or fills. *)

Record ChatCompletionRequest : Type := mkRequest {
  skip_special_tokens : bool
}.

Record ToolCall : Type := mkToolCall {
  name : str;
  arguments : value
}.

Record ExtractedToolCallInformation : Type := mkInfo {
  tools_called : bool;
  tool_calls : list ToolCall;
  content : option str
}.

Record DeltaMessage : Type := mkDelta {
  delta_role : str;
  delta_content : option str;
  delta_tool_calls : list ToolCall
}.

(** ** The parser *)

Module NewModelToolParser.

Definition _START_ASSISTANT : str :=
  py "<|start_header_id|>assistant<|end_header_id|>".
Definition _EOT : str := py "<|eot_id|>".
Definition _EOM : str := py "<|eom_id|>".
Definition _PYTHON_TAG : str := py "<|python_tag|>".

(** The JSON tool-call pattern, compiled with [re.DOTALL]. *)
Definition _JSON_RE : re :=
  Lit (py "{`name`") +++ Star Space +++ Lit (py ":") +++ Star Space
  +++ Lit (py "`") +++ Group "name" (Plus (NotChr 34)) +++ Lit (py "`")
  +++ Star Space +++ Lit (py ",") +++ Star Space
  +++ Lit (py "`parameters`") +++ Star Space +++ Lit (py ":")
  +++ Star Space
  +++ Group "params" (Lit (py "{") +++ LazyStar Any +++ Lit (py "}"))
  +++ Lit (py "}").

(** The ipython tool-call pattern, compiled with [re.DOTALL]. *)
Definition _PY_RE : re :=
  Lit (py "<|python_tag|>") +++ Group "name" (Plus Word)
  +++ Lit (py ".call(") +++ Group "args" (LazyStar Any) +++ Lit (py ")").

Definition adjust_request (request : ChatCompletionRequest)
  : ChatCompletionRequest :=
  mkRequest false.

(** The body of [for pair in args_s.split(",")], run over the pieces that
    are left, on the dictionary [kwargs] filled so far. *)
Fixpoint for_pairs (pairs : list str) (kwargs : dict) : result dict :=
  match pairs with
  | [] => Return kwargs
  | pair_s :: rest =>
      match Str.split1 (Str.chr "=") pair_s with
      | [k; v] =>
          x <- (if Str.startswith (py "{") (Str.strip v)
                   || Str.startswith (py "[") (Str.strip v)
                then Json.loads (Str.strip v)
                else Return (VStr (Str.strip_chars (py "`'") (Str.strip v)))) ;
          for_pairs rest (dict_set kwargs (Str.strip k) x)
      | _ => Raise ValueError
      end
  end.

Section Parser.

Variable unicode_isalnum : N -> bool.

Definition extract_tool_calls (model_output : str)
           (request : ChatCompletionRequest)
  : result ExtractedToolCallInformation :=
  tools <-
    match search unicode_isalnum _JSON_RE model_output with
    | Some m =>
        (* 1. Look for the JSON form *)
        let name := group m "name" in
        let params_s := group m "params" in
        arguments <- Json.loads params_s ;
        Return [mkToolCall name arguments]
    | None =>
        match search unicode_isalnum _PY_RE model_output with
        | Some m =>
            (* 2. Otherwise look for the ipython form *)
            let name := group m "name" in
            let args_s := group m "args" in
            kwargs <-
              match Str.strip args_s with
              | _ :: _ => for_pairs (Str.split (Str.chr ",") args_s) []
              | [] => Return []
              end ;
            Return [mkToolCall name (VDict kwargs)]
        | None => Return []
        end
    end ;
  (* 3. Return results *)
  match tools with
  | _ :: _ => Return (mkInfo true tools None)
  | [] => Return (mkInfo false [] (Some model_output))
  end.

Definition extract_tool_calls_streaming
           (previous_text current_text delta_text : str)
           (previous_token_ids current_token_ids delta_token_ids : list Z)
           (request : ChatCompletionRequest)
  : result (option DeltaMessage) :=
  (* Wait until the tool call is closed *)
  if negb (Str.contains _EOT current_text)
     && negb (Str.contains _EOM current_text)
  then Return None
  else
    info <- extract_tool_calls current_text request ;
    if negb (tools_called info) then Return None
    else Return (Some (mkDelta (py "assistant") None (tool_calls info))).

(** Modelled from the spec: the host's streaming loop, which is not in
    the repository.  Each evaluation receives the previous full text,
    the new full text and the delta; the token ids play no part and are
    left empty.  The list holds the outcome of every evaluation, in
    order. *)
Fixpoint stream (previous_text : str) (deltas : list str)
         (request : ChatCompletionRequest)
  : list (result (option DeltaMessage)) :=
  match deltas with
  | [] => []
  | delta_text :: rest =>
      let current_text := previous_text ++ delta_text in
      extract_tool_calls_streaming previous_text current_text delta_text
                                   [] [] [] request
      :: stream current_text rest request
  end.

End Parser.

(** The accumulated text of the evaluation of index [i] of a stream that
    starts empty. *)
Definition buffer (deltas : list str) (i : nat) : str :=
  List.concat (firstn (S i) deltas).

End NewModelToolParser.

Import NewModelToolParser.

(** ** Example turns

    The texts the properties below are evaluated on. *)

Definition weather_text : str :=
  py "Sure.{`name`: `get_weather`, `parameters`: {`city`: `Boston`}}<|eot_id|>".

Definition search_text : str :=
  py "<|python_tag|>search.call(query=`rust ownership`, limit=5, tags=[`lang`,`safety`])<|eom_id|>".

Definition nested_text : str :=
  py "{`name`: `f`, `parameters`: {`a`: {`b`: 1}}}<|eot_id|>".

Definition bad_json_text : str :=
  py "{`name`: `x`, `parameters`: {bad json}}<|eot_id|>".

Definition comma_text : str :=
  py "<|python_tag|>f.call(msg=`a, b`)<|eom_id|>".

Definition ping_text : str :=
  py "<|python_tag|>ping.call( )<|eom_id|>".

Definition plain_text : str := py "hello<|eot_id|>".

(** A turn whose argument holds the text of the end-of-turn marker, in two
    deltas: the call, then the marker that ends the turn. *)
Definition marker_turn : list str :=
  [py "{`name`: `f`, `parameters`: {`a`: `<|eot_id|>`}}"; py "<|eot_id|>"].

(** Two structured calls and an ipython call; an ipython call and then a
    structured call. *)
Definition two_calls_text : str :=
  py "{`name`: `a`, `parameters`: {}} <|python_tag|>b.call(y=2) {`name`: `c`, `parameters`: {`x`: 1}}<|eot_id|>".

Definition mixed_text : str :=
  py "<|python_tag|>b.call(y=2) {`name`: `c`, `parameters`: {`x`: 1}}<|eot_id|>".

(** A call that is complete but not yet closed by a marker. *)
Definition open_text : str := py "{`name`: `f`, `parameters`: {}}".

(** More turns: a value with parentheses, several kinds of values, a
    positional argument, a repeated key, one quoted argument, and the
    weather turn in three deltas. *)
Definition paren_text : str := py "<|python_tag|>f.call(msg=`(hi)`)<|eom_id|>".

Definition args_text : str :=
  py "<|python_tag|>ping.call(a = 'x' , b= [1] ,c={`k`: 2})<|eom_id|>".

(** What [args_text] is extracted as. *)
Definition args_dict : dict :=
  [(py "a", VStr (py "x")); (py "b", VList [VInt 1]);
   (py "c", VDict [(py "k", VInt 2)])].

Definition args_call : ToolCall := mkToolCall (py "ping") (VDict args_dict).

Definition positional_text : str := py "<|python_tag|>f.call(5)<|eom_id|>".

Definition repeated_text : str := py "<|python_tag|>f.call(a=1, a=2)<|eom_id|>".

Definition boston_text : str :=
  py "<|python_tag|>get.call(city=`Boston`)<|eom_id|>".

Definition weather_deltas : list str :=
  [py "Sure.{`name`: `get_wea";
   py "ther`, `parameters`: {`city`: `Boston`}}<|eot";
   py "_id|>"].

(** ** Vocabulary of the properties *)

(** The keys of a dictionary, in the order of its entries. *)
Definition keys (d : dict) : list str := map fst d.

(** A value that is a string, a list or a dictionary. *)
Definition is_container_or_str (v : value) : Prop :=
  match v with
  | VStr _ | VList _ | VDict _ => True
  | _ => False
  end.

(** A text that neither starts nor ends with a character of [p]. *)
Definition trimmed (p : N -> bool) (s : str) : Prop :=
  match s with
  | [] => True
  | c :: _ => p c = false /\ p (last s c) = false
  end.

(** The characters of the second [strip] of the loop: the two quotes. *)
Definition is_quote (c : N) : bool := existsb (N.eqb c) (py "`'").

(** [x not in s], for a character [x]. *)
Definition no_char (x : N) (s : str) : bool :=
  forallb (fun c => negb (N.eqb c x)) s.

(** The right-hand side of the assignment in the loop of
    [extract_tool_calls], for the value text [v] of a piece; [for_pairs]
    assigns exactly this ([for_pairs_cons] below). *)
Definition assigned_value (v : str) : result value :=
  if Str.startswith (py "{") (Str.strip v)
     || Str.startswith (py "[") (Str.strip v)
  then Json.loads (Str.strip v)
  else Return (VStr (Str.strip_chars (py "`'") (Str.strip v))).

(** A piece that the loop takes without raising for sure: it holds an
    equals sign, and its value text, stripped, starts neither with a brace
    nor with a bracket. *)
Definition plain_piece (p : str) : bool :=
  match Str.split1 (Str.chr "=") p with
  | [k; v] =>
      negb (Str.startswith (py "{") (Str.strip v)
            || Str.startswith (py "[") (Str.strip v))
  | _ => false
  end.

(** * Properties *)

(** ** Stripping and splitting *)

Module StrFacts.

Lemma lstrip_all (p : N -> bool) (s : str) :
  forallb p s = true -> Str.lstrip p s = [].
Proof.
  induction s as [|c s IH]; simpl; [reflexivity|].
  destruct (p c); simpl; [exact IH | discriminate].
Qed.

Lemma lstrip_nil (p : N -> bool) (s : str) :
  Str.lstrip p s = [] -> forallb p s = true.
Proof.
  induction s as [|c s IH]; simpl; [reflexivity|].
  destruct (p c); simpl; [exact IH | discriminate].
Qed.

Lemma forallb_rev (p : N -> bool) (s : str) :
  forallb p (rev s) = forallb p s.
Proof.
  induction s as [|c s IH]; simpl; [reflexivity|].
  rewrite forallb_app, IH. simpl. rewrite andb_true_r. apply andb_comm.
Qed.

(** [s.strip()] is empty exactly when [s] is white space only. *)
Lemma strip_blank (s : str) :
  Str.strip s = [] <-> forallb Str.isspace s = true.
Proof.
  unfold Str.strip, Str.rstrip. split; intros H.
  - apply lstrip_nil.
    assert (H1 : Str.lstrip Str.isspace (rev (Str.lstrip Str.isspace s)) = []).
    { apply (f_equal (@rev N)) in H. rewrite rev_involutive in H.
      exact H. }
    apply lstrip_nil in H1. rewrite forallb_rev in H1.
    clear H. induction s as [|c s IH]; simpl in *; [reflexivity|].
    destruct (Str.isspace c) eqn:E; [auto|].
    simpl in H1. rewrite E in H1. discriminate.
  - rewrite (lstrip_all _ _ H). reflexivity.
Qed.

(** A text without the separator is one piece. *)
Lemma split_from_one (sep : N) (s : str) :
  forallb (fun c => negb (N.eqb c sep)) s = true ->
  forall cur, Str.split_from sep cur s = [rev cur ++ s].
Proof.
  induction s as [|c s IH]; simpl; intros H cur.
  - rewrite app_nil_r; reflexivity.
  - apply andb_prop in H. destruct H as [Hc Hs].
    destruct (N.eqb c sep); [discriminate|].
    rewrite (IH Hs). simpl. rewrite <- app_assoc. reflexivity.
Qed.

Lemma split1_from_one (sep : N) (s : str) :
  forallb (fun c => negb (N.eqb c sep)) s = true ->
  forall cur, Str.split1_from sep cur s = [rev cur ++ s].
Proof.
  induction s as [|c s IH]; simpl; intros H cur.
  - rewrite app_nil_r; reflexivity.
  - apply andb_prop in H. destruct H as [Hc Hs].
    destruct (N.eqb c sep); [discriminate|].
    rewrite (IH Hs). simpl. rewrite <- app_assoc. reflexivity.
Qed.

Lemma forallb_weaken (p q : N -> bool) (s : str) :
  (forall c, p c = true -> q c = true) ->
  forallb p s = true -> forallb q s = true.
Proof.
  intros Hpq. induction s as [|c s IH]; simpl; [reflexivity|].
  intros H. apply andb_prop in H. destruct H as [Hc Hs].
  rewrite (Hpq _ Hc), (IH Hs). reflexivity.
Qed.

Lemma isspace_not (x : N) (c : N) :
  Str.isspace x = false -> Str.isspace c = true -> negb (N.eqb c x) = true.
Proof.
  intros Hx Hc. destruct (N.eqb_spec c x); [subst; congruence | reflexivity].
Qed.

(** White space holds neither a comma nor an equals sign: it is one piece
    and cannot be unpacked into a key and a value. *)
Lemma blank_pieces (s : str) :
  Str.strip s = [] ->
  Str.split (Str.chr ",") s = [s] /\ Str.split1 (Str.chr "=") s = [s].
Proof.
  intros H. apply strip_blank in H. split.
  - apply (split_from_one (Str.chr ",") s) with (cur := []).
    revert H. apply forallb_weaken.
    intros c Hc. apply (isspace_not (Str.chr ",") c); [reflexivity | exact Hc].
  - apply (split1_from_one (Str.chr "=") s) with (cur := []).
    revert H. apply forallb_weaken.
    intros c Hc. apply (isspace_not (Str.chr "=") c); [reflexivity | exact Hc].
Qed.

End StrFacts.

(** ** The decoder always has enough fuel *)

Module JsonFacts.

Lemma lstrip_length (p : N -> bool) (s : str) :
  List.length (Str.lstrip p s) <= List.length s.
Proof.
  induction s as [|c s IH]; simpl; [lia|].
  destruct (p c); simpl; lia.
Qed.

Lemma skip_ws_length (s : str) :
  List.length (skip_ws s) <= List.length s.
Proof. apply lstrip_length. Qed.

Lemma strip_prefix_length (p s r : str) :
  Str.strip_prefix p s = Some r ->
  List.length s = List.length p + List.length r.
Proof.
  revert s; induction p as [|a p IH]; intros s; simpl.
  - intros H; inversion H; reflexivity.
  - destruct s as [|b s]; [discriminate|].
    destruct (N.eqb a b); [|discriminate].
    intros H; apply IH in H; simpl; lia.
Qed.

Lemma scanstring_shorter_aux (n : nat) :
  forall s acc x r,
    List.length s <= n ->
    scanstring s acc = Some (x, r) -> List.length r < List.length s.
Proof.
  induction n as [|n IH]; intros s acc x r Hn H.
  - destruct s; simpl in *; [discriminate | lia].
  - destruct s as [|c t]; [discriminate|].
    simpl in H, Hn.
    destruct (N.eqb c 34).
    { inversion H; subst. simpl. lia. }
    destruct (N.eqb c 92).
    2:{ destruct (N.leb c 31); [discriminate|].
        apply IH in H; simpl; lia. }
    destruct t as [|e t1]; [discriminate|].
    simpl in Hn.
    destruct (N.eqb e 117).
    2:{ destruct (escape e); [|discriminate].
        apply IH in H; simpl in *; lia. }
    destruct t1 as [|h1 [|h2 [|h3 [|h4 t2]]]]; try discriminate.
    simpl in Hn.
    destruct (hex4 h1 h2 h3 h4) as [u|]; [|discriminate].
    assert (Hk : forall a, scanstring t2 a = Some (x, r) ->
                           List.length r < List.length t2)
      by (intros a Ha; apply IH in Ha; lia).
    destruct (is_high_surrogate u).
    2:{ apply Hk in H; simpl; lia. }
    destruct t2 as [|b [|l [|g1 [|g2 [|g3 [|g4 t3]]]]]];
      try (apply Hk in H; simpl in *; lia).
    destruct (N.eqb b 92 && N.eqb l 117).
    2:{ apply Hk in H; simpl in *; lia. }
    destruct (hex4 g1 g2 g3 g4) as [u2|]; [|discriminate].
    destruct (is_low_surrogate u2).
    + apply IH in H; simpl in *; lia.
    + apply Hk in H; simpl in *; lia.
Qed.

Lemma scanstring_shorter (s acc x r : str) :
  scanstring s acc = Some (x, r) -> List.length r < List.length s.
Proof. apply scanstring_shorter_aux with (n := List.length s); lia. Qed.

Lemma span_length (p : N -> bool) (s a r : str) :
  span p s = (a, r) -> List.length r <= List.length s.
Proof.
  revert a r; induction s as [|c s IH]; simpl; intros a r H.
  - inversion H; subst; simpl; lia.
  - destruct (p c).
    + destruct (span p s) as [a' r'] eqn:E.
      inversion H; subst. specialize (IH _ _ eq_refl). lia.
    + inversion H; subst; simpl; lia.
Qed.

Ltac break_in H :=
  match type of H with
  | context [match ?x with _ => _ end] => destruct x eqn:?
  | context [if ?x then _ else _] => destruct x eqn:?
  end.

(** Turns what the goal knows of the pieces of a text into bounds on
    their lengths. *)
Ltac lengths :=
  repeat match goal with
    | E : scanstring _ _ = Some _ |- _ => apply scanstring_shorter in E
    | E : span _ _ = (_, _) |- _ => apply span_length in E
    | E : Str.strip_prefix _ _ = Some _ |- _ =>
        apply strip_prefix_length in E
    | E : skip_ws ?t = _ |- _ =>
        let L := fresh "L" in
        pose proof (skip_ws_length t) as L; rewrite E in L; clear E
    end;
  repeat match goal with
    | H : context [List.length (skip_ws ?t)] |- _ =>
        lazymatch goal with
        | _ : List.length (skip_ws t) <= List.length t |- _ => fail
        | _ => pose proof (skip_ws_length t)
        end
    | |- context [List.length (skip_ws ?t)] =>
        lazymatch goal with
        | _ : List.length (skip_ws t) <= List.length t |- _ => fail
        | _ => pose proof (skip_ws_length t)
        end
    end;
  simpl in *; try lia.

Ltac break_all :=
  repeat match goal with
    | H : context [match ?x with _ => _ end] |- _ => destruct x eqn:?
    | H : context [if ?x then _ else _] |- _ => destruct x eqn:?
    | H : (_, _) = (_, _) |- _ => inversion H; subst; clear H
    | H : Some _ = Some _ |- _ => inversion H; subst; clear H
    | H : Some _ = None |- _ => discriminate H
    | H : None = Some _ |- _ => discriminate H
    end.

Lemma match_number_shorter (s : str) (v : value) (r : str) :
  match_number s = Some (v, r) -> List.length r < List.length s.
Proof.
  unfold match_number; intros H.
  break_all; lengths.
Qed.

Lemma scan_word_shorter (s : str) (v : value) (r : str) :
  scan_word s = Some (v, r) -> List.length r < List.length s.
Proof.
  unfold scan_word; intros H.
  repeat break_in H; try discriminate; inversion H; subst; clear H;
    try (match goal with
         | E : match_number _ = Some _ |- _ =>
             apply match_number_shorter in E; exact E
         end);
    lengths.
Qed.

(** A value that is read takes at least one character. *)
Lemma scan_shorter (n : nat) :
  (forall s v r, scan_once n s = Parsed v r ->
                 List.length r < List.length s)
  /\ (forall s d v r, JSONObject n s d = Parsed v r ->
                      List.length r < List.length s)
  /\ (forall s a v r, JSONArray n s a = Parsed v r ->
                      List.length r < List.length s).
Proof.
  induction n as [|n (IHs & IHo & IHa)].
  { repeat split; intros; discriminate. }
  assert (IHs' : forall s v r, scan_once n s = Parsed v r ->
                               List.length r < List.length s) by exact IHs.
  repeat split; intros until r; intros H; simpl in H; break_all;
    try discriminate;
    repeat match goal with
      | E : Parsed _ _ = Parsed _ _ |- _ => inversion E; subst; clear E
      | E : scan_once _ _ = Parsed _ _ |- _ => apply IHs' in E
      | E : JSONObject _ _ _ = Parsed _ _ |- _ => apply IHo in E
      | E : JSONArray _ _ _ = Parsed _ _ |- _ => apply IHa in E
      | E : scan_word _ = Some _ |- _ => apply scan_word_shorter in E
      end;
    lengths.
Qed.

(** Twice the length of the text, and one more, is enough fuel. *)
Lemma scan_fuel (n : nat) :
  (forall s, 2 * List.length s < n -> scan_once n s <> OutOfFuel)
  /\ (forall s d, 2 * List.length s + 1 < n ->
                  JSONObject n s d <> OutOfFuel)
  /\ (forall s a, 2 * List.length s + 1 < n ->
                  JSONArray n s a <> OutOfFuel).
Proof.
  induction n as [|n (IHs & IHo & IHa)].
  { repeat split; intros; simpl in *; lia. }
  pose proof (proj1 (scan_shorter n)) as Hs.
  repeat split; intros until 1; intros HF; simpl in HF; break_all;
    try discriminate;
    exfalso;
    match goal with
    | E : scan_once n ?s = OutOfFuel |- _ => apply (IHs s); [|exact E]
    | E : JSONObject n ?s ?d = OutOfFuel |- _ => apply (IHo s d); [|exact E]
    | E : JSONArray n ?s ?a = OutOfFuel |- _ => apply (IHa s a); [|exact E]
    end;
    repeat match goal with
      | E : scan_once _ _ = Parsed _ _ |- _ => apply Hs in E
      end;
    lengths.
Qed.

Theorem scan_once_fuel (s : str) :
  scan_once (S (2 * List.length s)) s <> OutOfFuel.
Proof. apply (proj1 (scan_fuel _)); lia. Qed.

End JsonFacts.

(** ** The search of [re] *)

Module ReFacts.

Section Search.

Variable u : N -> bool.

(** A match that [search] returns starts at the leftmost index where an
    attempt succeeds. *)
Lemma search_from_leftmost (r : re) (s : str) :
  forall pos m,
    search_from u r pos s = Some m ->
    pos <= m_start m
    /\ match_here u r (skipn (m_start m - pos) s) <> None
    /\ forall j, j < m_start m - pos ->
                 match_here u r (skipn j s) = None.
Proof.
  induction s as [|c s IH]; intros pos m H; simpl in H.
  - destruct (match_here u r []) as [[rest g]|] eqn:E; [|discriminate].
    inversion H; subst; simpl.
    rewrite Nat.sub_diag; simpl. rewrite E.
    repeat split; [lia | discriminate | intros j Hj; lia].
  - destruct (match_here u r (c :: s)) as [[rest g]|] eqn:E.
    + inversion H; subst; simpl.
      rewrite Nat.sub_diag; simpl. rewrite E.
      repeat split; [lia | discriminate | intros j Hj; lia].
    + apply IH in H. destruct H as (Hp & Hm & Hl).
      replace (m_start m - pos) with (S (m_start m - S pos)) by lia.
      repeat split; [lia | exact Hm |].
      intros [|j] Hj; simpl; [exact E | apply Hl; lia].
Qed.

(** When [search] finds nothing, no attempt succeeds anywhere. *)
Lemma search_from_nowhere (r : re) (s : str) :
  forall pos,
    search_from u r pos s = None ->
    forall j, match_here u r (skipn j s) = None.
Proof.
  induction s as [|c s IH]; intros pos H j; simpl in H.
  - destruct (match_here u r []) as [[rest g]|] eqn:E; [discriminate|].
    destruct j; exact E.
  - destruct (match_here u r (c :: s)) as [[rest g]|] eqn:E;
      [discriminate|].
    destruct j as [|j]; simpl; [exact E | eapply IH; exact H].
Qed.

Lemma search_leftmost (r : re) (s : str) (m : Match) :
  search u r s = Some m ->
  forall j, j < m_start m -> match_here u r (skipn j s) = None.
Proof.
  intros H j Hj. apply search_from_leftmost in H.
  destruct H as (_ & _ & Hl). apply Hl; lia.
Qed.

Lemma search_nowhere (r : re) (s : str) :
  search u r s = None -> forall j, match_here u r (skipn j s) = None.
Proof. apply search_from_nowhere. Qed.

Lemma bound_cons (n n' : string) (t : str) (g : groups) :
  bound n g -> bound n ((n', t) :: g).
Proof.
  unfold bound; simpl. destruct (String.eqb n' n); [discriminate | auto].
Qed.

Lemma bound_head (n : string) (t : str) (g : groups) :
  bound n ((n, t) :: g).
Proof. unfold bound; simpl. rewrite String.eqb_refl. discriminate. Qed.

(** The groups of a pattern all take part in a match of it. *)
Lemma greedy_inv (p : N -> bool) (k : str -> answer) (a : str * groups) :
  forall s, greedy p s k = Some a -> exists s', k s' = Some a.
Proof.
  induction s as [|c s IH]; simpl; intros H; [eauto|].
  destruct (p c); [|eauto].
  destruct (greedy p s k) eqn:E; [|eauto].
  inversion H; subst. auto.
Qed.

Lemma lazy_inv (p : N -> bool) (k : str -> answer) (a : str * groups) :
  forall s, lazy p s k = Some a -> exists s', k s' = Some a.
Proof.
  induction s as [|c s IH]; simpl; intros H.
  - destruct (k []) eqn:E; [inversion H; subst; eauto | discriminate].
  - destruct (k (c :: s)) eqn:E; [inversion H; subst; eauto|].
    destruct (p c); [auto | discriminate].
Qed.

Lemma run_inv (r : re) :
  forall s g k a,
    run u r s g k = Some a ->
    exists s' g',
      k s' g' = Some a
      /\ (forall n, bound n g -> bound n g')
      /\ (forall n, In n (names r) -> bound n g').
Proof.
  induction r as [l|c|c|c|n r1 IH1|r1 IH1 r2 IH2]; intros s g k a H;
    simpl in H.
  - destruct (Str.strip_prefix l s) as [s'|]; [|discriminate].
    exists s', g; simpl; intuition.
  - apply greedy_inv in H. destruct H as [s' H].
    exists s', g; simpl; intuition.
  - destruct s as [|x s1]; [discriminate|].
    destruct (in_cset u c x); [|discriminate].
    apply greedy_inv in H. destruct H as [s' H].
    exists s', g; simpl; intuition.
  - apply lazy_inv in H. destruct H as [s' H].
    exists s', g; simpl; intuition.
  - apply IH1 in H. destruct H as (s' & g' & Hk & Hm & Hn).
    eexists _, _; split; [exact Hk|]. split.
    + intros n0 Hb. apply bound_cons; auto.
    + simpl. intros n0 [<-|Hin]; [apply bound_head|].
      apply bound_cons; auto.
  - apply IH1 in H. destruct H as (s1 & g1 & Hk & Hm & Hn).
    apply IH2 in Hk. destruct Hk as (s2 & g2 & Hk & Hm2 & Hn2).
    exists s2, g2; split; [exact Hk|]. split; [auto|].
    simpl. intros n0 Hin. apply in_app_or in Hin. destruct Hin; auto.
Qed.

Lemma search_from_groups (r : re) (s : str) :
  forall pos m,
    search_from u r pos s = Some m ->
    forall n, In n (names r) -> bound n (m_groups m).
Proof.
  assert (Hh : forall t rest g,
             match_here u r t = Some (rest, g) ->
             forall n, In n (names r) -> bound n g).
  { intros t rest g H n Hin. apply run_inv in H.
    destruct H as (s' & g' & Hk & _ & Hn).
    inversion Hk; subst. auto. }
  induction s as [|c s IH]; intros pos m H; simpl in H.
  - destruct (match_here u r []) as [[rest g]|] eqn:E; [|discriminate].
    inversion H; subst; simpl. eauto.
  - destruct (match_here u r (c :: s)) as [[rest g]|] eqn:E.
    + inversion H; subst; simpl. eauto.
    + eauto.
Qed.

Lemma group_of_lookup (m : Match) (n : string) :
  bound n (m_groups m) -> lookup n (m_groups m) = Some (group m n).
Proof.
  unfold bound, group. destruct (lookup n (m_groups m)); congruence.
Qed.

(** In a match of [_JSON_RE] and of [_PY_RE] both groups are set. *)
Lemma JSON_RE_groups (s : str) (m : Match) :
  search u _JSON_RE s = Some m ->
  lookup "name" (m_groups m) = Some (group m "name")
  /\ lookup "params" (m_groups m) = Some (group m "params").
Proof.
  intros H; split; apply group_of_lookup;
    eapply search_from_groups; try exact H; simpl; auto.
Qed.

Lemma PY_RE_groups (s : str) (m : Match) :
  search u _PY_RE s = Some m ->
  lookup "name" (m_groups m) = Some (group m "name")
  /\ lookup "args" (m_groups m) = Some (group m "args").
Proof.
  intros H; split; apply group_of_lookup;
    eapply search_from_groups; try exact H; simpl; auto.
Qed.

(** How the repetitions run on a text that is given in two parts. *)
Lemma strip_prefix_app (l s : str) : Str.strip_prefix l (l ++ s) = Some s.
Proof.
  induction l as [|a l IH]; simpl; [reflexivity|].
  rewrite N.eqb_refl. exact IH.
Qed.

Lemma greedy_app (p : N -> bool) (k : str -> answer) (a : str * groups)
      (l t : str) :
  forallb p l = true ->
  greedy p t k = Some a -> greedy p (l ++ t) k = Some a.
Proof.
  induction l as [|c l IH]; simpl; intros Hl Ht; [exact Ht|].
  apply andb_prop in Hl. destruct Hl as [Hc Hl].
  rewrite Hc, (IH Hl Ht). reflexivity.
Qed.

Lemma lazy_skip (p : N -> bool) (k : str -> answer) (l t : str) :
  forallb p l = true ->
  (forall c s', In c l -> k (c :: s') = None) ->
  lazy p (l ++ t) k = lazy p t k.
Proof.
  induction l as [|c l IH]; simpl; intros Hl Hk; [reflexivity|].
  apply andb_prop in Hl. destruct Hl as [Hc Hl].
  rewrite (Hk c (l ++ t) (or_introl eq_refl)), Hc.
  apply IH; [exact Hl | intros; apply Hk; right; assumption].
Qed.

Lemma lazy_now (p : N -> bool) (k : str -> answer) (a : str * groups)
      (t : str) :
  k t = Some a -> lazy p t k = Some a.
Proof. intros H. destruct t; simpl; rewrite H; reflexivity. Qed.

Lemma firstn_app_sub (l t : str) :
  firstn (List.length (l ++ t) - List.length t) (l ++ t) = l.
Proof.
  rewrite length_app.
  replace (List.length l + List.length t - List.length t)
    with (List.length l + 0) by lia.
  rewrite firstn_app_2. simpl. apply app_nil_r.
Qed.

Lemma search_from_here (r : re) (pos : nat) (s rest : str) (g : groups) :
  match_here u r s = Some (rest, g) ->
  search_from u r pos s
  = Some (mkMatch pos (pos + (List.length s - List.length rest)) g).
Proof. intros H. destruct s; simpl; rewrite H; reflexivity. Qed.

Lemma nowhere_search_from (r : re) (s : str) :
  (forall j, match_here u r (skipn j s) = None) ->
  forall pos, search_from u r pos s = None.
Proof.
  induction s as [|c s IH]; intros H pos; simpl; pose proof (H 0) as H0;
    simpl in H0; rewrite H0.
  - reflexivity.
  - apply IH. intros j. exact (H (S j)).
Qed.

Lemma run_lit_mismatch (a : N) (l : str) (r : re) (c : N) (s : str)
      (g : groups) (k : str -> groups -> answer) :
  N.eqb a c = false -> run u (Lit (a :: l) +++ r) (c :: s) g k = None.
Proof.
  intros H. cbn [run Str.strip_prefix]. rewrite H. reflexivity.
Qed.

(** A match of [_JSON_RE] starts at an opening brace. *)
Lemma JSON_RE_at_brace (s : str) :
  match s with
  | c :: _ => N.eqb c 123 = false
  | [] => True
  end ->
  match_here u _JSON_RE s = None.
Proof.
  destruct s as [|c s]; intros H; [reflexivity|].
  unfold match_here, _JSON_RE.
  change (py "{`name`") with (123%N :: py "`name`").
  apply run_lit_mismatch. rewrite N.eqb_sym. exact H.
Qed.

Lemma JSON_RE_after (pre rest : str) :
  forallb (fun c => negb (N.eqb c 123)) pre = true ->
  search u _JSON_RE rest = None ->
  search u _JSON_RE (pre ++ rest) = None.
Proof.
  intros Hpre Hrest. unfold search. generalize 0.
  induction pre as [|c pre IH]; intros pos; simpl.
  - apply nowhere_search_from. apply search_nowhere. exact Hrest.
  - simpl in Hpre. apply andb_prop in Hpre. destruct Hpre as [Hc Hpre].
    rewrite JSON_RE_at_brace.
    + apply IH; exact Hpre.
    + destruct (N.eqb c 123); [discriminate | reflexivity].
Qed.

End Search.

End ReFacts.

(** ** The parser *)

Section ParserProperties.

Variable unicode_isalnum : N -> bool.
Variable request : ChatCompletionRequest.

Let u := unicode_isalnum.

(** *** Worked examples *)

Lemma weather_match :
  search u _JSON_RE weather_text
  = Some (mkMatch 5 62 [("params"%string, py "{`city`: `Boston`}");
                        ("name"%string, py "get_weather")]).
Proof. vm_compute. reflexivity. Qed.

Lemma weather_loads :
  Json.loads (py "{`city`: `Boston`}")
  = Return (VDict [(py "city", VStr (py "Boston"))]).
Proof. vm_compute. reflexivity. Qed.

(** C8: for the text [Sure.{"name": "get_weather", "parameters": {"city":
    "Boston"}}<|eot_id|>] the extraction returns the call of [get_weather]
    with the arguments [{"city": "Boston"}], [tools_called] true and no
    content. *)
Theorem structured_example :
  extract_tool_calls u weather_text request
  = Return (mkInfo true
              [mkToolCall (py "get_weather")
                          (VDict [(py "city", VStr (py "Boston"))])]
              None).
Proof.
  unfold extract_tool_calls. rewrite weather_match.
  change (group _ "params") with (py "{`city`: `Boston`}").
  change (group _ "name") with (py "get_weather").
  rewrite weather_loads. reflexivity.
Qed.

Lemma search_text_no_json : search u _JSON_RE search_text = None.
Proof. vm_compute. reflexivity. Qed.

Lemma search_text_match :
  search u _PY_RE search_text
  = Some (mkMatch 0 82
            [("args"%string,
              py "query=`rust ownership`, limit=5, tags=[`lang`,`safety`]");
             ("name"%string, py "search")]).
Proof. vm_compute. reflexivity. Qed.

Lemma search_text_pieces :
  Str.split (Str.chr ",")
            (py "query=`rust ownership`, limit=5, tags=[`lang`,`safety`]")
  = [py "query=`rust ownership`"; py " limit=5"; py " tags=[`lang`";
     py "`safety`]"].
Proof. vm_compute. reflexivity. Qed.

Lemma search_text_first_pieces :
  for_pairs [py "query=`rust ownership`"; py " limit=5"] []
  = Return [(py "query", VStr (py "rust ownership"));
            (py "limit", VStr (py "5"))].
Proof. vm_compute. reflexivity. Qed.

Lemma search_text_third_piece :
  Str.split1 (Str.chr "=") (py " tags=[`lang`") = [py " tags"; py "[`lang`"]
  /\ Json.loads (py "[`lang`") = Raise JSONDecodeError.
Proof. split; vm_compute; reflexivity. Qed.

(** C1 (the code departs from the specification): on the text
    [<|python_tag|>search.call(query="rust ownership", limit=5,
    tags=["lang","safety"])<|eom_id|>] the extraction returns no call: it
    raises [JSONDecodeError].  The capture is cut at every comma, also at
    the one inside the list, so that the third piece carries the value
    [["lang"], which starts with a bracket and is not JSON: the list is
    never closed. *)
Theorem call_syntax_example_raises :
  extract_tool_calls u search_text request = Raise JSONDecodeError.
Proof.
  unfold extract_tool_calls.
  rewrite search_text_no_json, search_text_match.
  change (group _ "args")
    with (py "query=`rust ownership`, limit=5, tags=[`lang`,`safety`]").
  rewrite search_text_pieces.
  vm_compute. reflexivity.
Qed.

Lemma nested_text_match :
  search u _JSON_RE nested_text
  = Some (mkMatch 0 43 [("params"%string, py "{`a`: {`b`: 1}");
                        ("name"%string, py "f")]).
Proof. vm_compute. reflexivity. Qed.

Lemma nested_text_loads :
  Json.loads (py "{`a`: {`b`: 1}") = Raise JSONDecodeError
  /\ Json.loads (py "{`a`: {`b`: 1}}")
     = Return (VDict [(py "a", VDict [(py "b", VInt 1)])]).
Proof. split; vm_compute; reflexivity. Qed.

(** C3 (the code departs from the specification): on the text
    [{"name": "f", "parameters": {"a": {"b": 1}}}<|eot_id|>], a well-formed
    object whose parameters end in a nested object, the extraction raises
    [JSONDecodeError].  The lazy pattern stops at the first two closing
    braces in a row: the capture is [{"a": {"b": 1}], one brace short of
    the parameters literal. *)
Theorem nested_parameters_raise :
  extract_tool_calls u nested_text request = Raise JSONDecodeError.
Proof.
  unfold extract_tool_calls. rewrite nested_text_match.
  change (group _ "params") with (py "{`a`: {`b`: 1}").
  rewrite (proj1 nested_text_loads). reflexivity.
Qed.

Lemma comma_text_no_json : search u _JSON_RE comma_text = None.
Proof. vm_compute. reflexivity. Qed.

Lemma comma_text_match :
  search u _PY_RE comma_text
  = Some (mkMatch 0 32 [("args"%string, py "msg=`a, b`");
                        ("name"%string, py "f")]).
Proof. vm_compute. reflexivity. Qed.

Lemma comma_text_pieces :
  Str.split (Str.chr ",") (py "msg=`a, b`") = [py "msg=`a"; py " b`"]
  /\ Str.split1 (Str.chr "=") (py " b`") = [py " b`"].
Proof. split; vm_compute; reflexivity. Qed.

(** C10: on the text [<|python_tag|>f.call(msg="a, b")<|eom_id|>], whose
    value holds a comma outside any JSON value, the extraction returns no
    outcome: the second piece of the capture (what follows the comma) has
    no [=] sign, and unpacking it raises a plain [ValueError], which is not
    the [JSONDecodeError] of a failed decoding. *)
Theorem comma_in_value_raises_ValueError :
  extract_tool_calls u comma_text request = Raise ValueError
  /\ ValueError <> JSONDecodeError
  /\ forall info, extract_tool_calls u comma_text request <> Return info.
Proof.
  assert (H : extract_tool_calls u comma_text request = Raise ValueError).
  { unfold extract_tool_calls.
    rewrite comma_text_no_json, comma_text_match.
    change (group _ "args") with (py "msg=`a, b`").
    rewrite (proj1 comma_text_pieces).
    vm_compute. reflexivity. }
  split; [exact H | split; [discriminate |]].
  intros info; rewrite H; discriminate.
Qed.

(** The host's loop hands every evaluation the texts before and after the
    delta. *)
Lemma stream_nth (deltas : list str) :
  forall prev i d,
    nth_error deltas i = Some d ->
    nth_error (stream u prev deltas request) i
    = Some (extract_tool_calls_streaming
              u (prev ++ List.concat (firstn i deltas))
              (prev ++ List.concat (firstn (S i) deltas)) d [] [] [] request).
Proof.
  induction deltas as [|d0 deltas IH]; intros prev i d H.
  - destruct i; discriminate.
  - destruct i as [|i]; simpl in H.
    + inversion H; subst. simpl. rewrite !app_nil_r. reflexivity.
    + simpl stream. simpl nth_error. rewrite (IH _ _ _ H).
      simpl. rewrite !app_assoc. reflexivity.
Qed.

(** C2 (the code departs from the specification): a complete turn whose
    argument holds the text of the end-of-turn marker, streamed as the call
    and then the marker that ends the turn.  The parser keeps no state between
    evaluations: the first evaluation already sees a marker and a complete
    call and emits the call, and the second evaluation emits it again. *)
Theorem stream_fires_twice :
  let call :=
    mkDelta (py "assistant") None
            [mkToolCall (py "f") (VDict [(py "a", VStr (py "<|eot_id|>"))])] in
  stream u [] marker_turn request = [Return (Some call); Return (Some call)].
Proof. vm_compute. reflexivity. Qed.

(** *** The structured form *)

(** C4: when the text captured as the parameters of a structured call is
    not JSON, the extraction raises the decoder's [JSONDecodeError]; it
    returns no outcome at all, so no empty or guessed arguments. *)
Theorem malformed_parameters_raise (text : str) (m : Match) :
  search u _JSON_RE text = Some m ->
  Json.loads (group m "params") = Raise JSONDecodeError ->
  extract_tool_calls u text request = Raise JSONDecodeError
  /\ forall info, extract_tool_calls u text request <> Return info.
Proof.
  intros Hm Hl.
  assert (H : extract_tool_calls u text request = Raise JSONDecodeError).
  { unfold extract_tool_calls. rewrite Hm. simpl. rewrite Hl. reflexivity. }
  split; [exact H | rewrite H; discriminate].
Qed.

(** The same in the ipython form: a value that starts with a brace or a
    bracket and is not JSON makes the extraction raise, whatever the other
    pieces are. *)
Lemma for_pairs_raises (pairs : list str) :
  forall kwargs p k v,
    In p pairs ->
    Str.split1 (Str.chr "=") p = [k; v] ->
    Str.startswith (py "{") (Str.strip v)
    || Str.startswith (py "[") (Str.strip v) = true ->
    Json.loads (Str.strip v) = Raise JSONDecodeError ->
    exists e, for_pairs pairs kwargs = Raise e.
Proof.
  induction pairs as [|q pairs IH]; intros kwargs p k v Hin Hsp Hst Hl;
    [contradiction|].
  destruct Hin as [-> | Hin].
  - exists JSONDecodeError. cbn [for_pairs]. rewrite Hsp, Hst, Hl.
    reflexivity.
  - cbn [for_pairs].
    destruct (Str.split1 (Str.chr "=") q) as [|a [|b [|c l]]];
      try (exists ValueError; reflexivity).
    destruct (if Str.startswith (py "{") (Str.strip b)
                 || Str.startswith (py "[") (Str.strip b)
              then Json.loads (Str.strip b)
              else Return (VStr (Str.strip_chars (py "`'") (Str.strip b))))
      as [x|e]; cbn [bind].
    + eapply IH; eassumption.
    + exists e; reflexivity.
Qed.

(** X14: in the ipython form, a piece whose value text starts with a brace
    or a bracket and is not JSON makes the extraction raise: no outcome is
    returned, whatever the other pieces are. *)
Lemma malformed_value_raises (text : str) (m : Match) (p k v : str) :
  search u _JSON_RE text = None ->
  search u _PY_RE text = Some m ->
  In p (Str.split (Str.chr ",") (group m "args")) ->
  Str.split1 (Str.chr "=") p = [k; v] ->
  Str.startswith (py "{") (Str.strip v)
  || Str.startswith (py "[") (Str.strip v) = true ->
  Json.loads (Str.strip v) = Raise JSONDecodeError ->
  exists e, extract_tool_calls u text request = Raise e.
Proof.
  intros Hj Hp Hin Hsp Hst Hl. unfold extract_tool_calls.
  rewrite Hj, Hp. simpl.
  destruct (Str.strip (group m "args")) as [|c t] eqn:E.
  - apply StrFacts.blank_pieces in E. destruct E as [E1 E2].
    rewrite E1 in Hin. destruct Hin as [<- | []].
    rewrite E2 in Hsp. discriminate.
  - destruct (for_pairs_raises _ [] p k v Hin Hsp Hst Hl) as [e ->].
    exists e; reflexivity.
Qed.

(** *** The streaming gate *)

Lemma gate_closed (prev cur delta : str) (pids cids dids : list Z) :
  Str.contains _EOT cur = false ->
  Str.contains _EOM cur = false ->
  extract_tool_calls_streaming u prev cur delta pids cids dids request
  = Return None.
Proof.
  intros H1 H2. unfold extract_tool_calls_streaming.
  rewrite H1, H2. reflexivity.
Qed.

(** C5: an evaluation whose text holds neither [<|eot_id|>] nor
    [<|eom_id|>] returns no output, whatever else the text holds; and in a
    stream every evaluation whose accumulated text holds no marker yet
    returns no output, so that nothing comes out before the first text
    with a marker. *)
Theorem no_terminator_no_output :
  (forall prev cur delta pids cids dids,
      Str.contains _EOT cur = false ->
      Str.contains _EOM cur = false ->
      extract_tool_calls_streaming u prev cur delta pids cids dids request
      = Return None)
  /\ (forall deltas i d,
         nth_error deltas i = Some d ->
         Str.contains _EOT (buffer deltas i) = false ->
         Str.contains _EOM (buffer deltas i) = false ->
         nth_error (stream u [] deltas request) i = Some (Return None)).
Proof.
  split.
  - apply gate_closed.
  - intros deltas i d Hd H1 H2.
    rewrite (stream_nth deltas [] i d Hd). f_equal.
    apply gate_closed; assumption.
Qed.

(** C6: when the text holds a marker and neither pattern matches anywhere,
    the extraction yields the whole text as content with [tools_called]
    false, and the streaming extraction returns no output: no error, no
    message. *)
Theorem terminator_without_match_no_output
        (prev cur delta : str) (pids cids dids : list Z) :
  Str.contains _EOT cur = true \/ Str.contains _EOM cur = true ->
  search u _JSON_RE cur = None ->
  search u _PY_RE cur = None ->
  extract_tool_calls u cur request = Return (mkInfo false [] (Some cur))
  /\ extract_tool_calls_streaming u prev cur delta pids cids dids request
     = Return None.
Proof.
  intros Ht Hj Hp.
  assert (He : extract_tool_calls u cur request
               = Return (mkInfo false [] (Some cur))).
  { unfold extract_tool_calls. rewrite Hj, Hp. reflexivity. }
  split; [exact He|].
  unfold extract_tool_calls_streaming. rewrite He.
  destruct (negb (Str.contains _EOT cur) && negb (Str.contains _EOM cur));
    reflexivity.
Qed.

(** The same for any extraction that reports no call. *)
Lemma fired_without_call (prev cur delta : str) (pids cids dids : list Z)
      (info : ExtractedToolCallInformation) :
  extract_tool_calls u cur request = Return info ->
  tools_called info = false ->
  extract_tool_calls_streaming u prev cur delta pids cids dids request
  = Return None.
Proof.
  intros He Hc. unfold extract_tool_calls_streaming. rewrite He. simpl.
  rewrite Hc. simpl.
  destruct (negb (Str.contains _EOT cur) && negb (Str.contains _EOM cur));
    reflexivity.
Qed.

(** The gate has no memory: every evaluation on a text with a marker and
    a call emits the call. *)
Lemma gate_open (prev cur delta : str) (pids cids dids : list Z)
      (info : ExtractedToolCallInformation) :
  Str.contains _EOT cur = true \/ Str.contains _EOM cur = true ->
  extract_tool_calls u cur request = Return info ->
  tools_called info = true ->
  extract_tool_calls_streaming u prev cur delta pids cids dids request
  = Return (Some (mkDelta (py "assistant") None (tool_calls info))).
Proof.
  intros Ht He Hc. unfold extract_tool_calls_streaming.
  replace (negb (Str.contains _EOT cur) && negb (Str.contains _EOM cur))
    with false
    by (destruct Ht as [-> | ->]; simpl;
        [reflexivity | rewrite andb_false_r; reflexivity]).
  rewrite He. simpl. rewrite Hc. reflexivity.
Qed.

(** *** One call at most, the structured form first *)

(** C7: an extraction that returns holds at most one call.  A match of
    [_JSON_RE] anywhere in the text decides the outcome alone: it is the
    leftmost one, and [_PY_RE] is not consulted.  Only when [_JSON_RE]
    matches nowhere in the text does the leftmost match of [_PY_RE] decide
    it. *)
Theorem at_most_one_invocation (text : str) :
  (forall info,
      extract_tool_calls u text request = Return info ->
      List.length (tool_calls info) <= 1)
  /\ (forall m,
         search u _JSON_RE text = Some m ->
         (forall j, j < m_start m ->
                    match_here u _JSON_RE (skipn j text) = None)
         /\ extract_tool_calls u text request
            = (arguments <- Json.loads (group m "params") ;
               Return (mkInfo true [mkToolCall (group m "name") arguments]
                              None)))
  /\ (search u _JSON_RE text = None ->
      (forall j, match_here u _JSON_RE (skipn j text) = None)
      /\ forall m,
          search u _PY_RE text = Some m ->
          (forall j, j < m_start m ->
                     match_here u _PY_RE (skipn j text) = None)
          /\ extract_tool_calls u text request
             = (kwargs <-
                  match Str.strip (group m "args") with
                  | _ :: _ =>
                      for_pairs (Str.split (Str.chr ",") (group m "args")) []
                  | [] => Return []
                  end ;
                Return (mkInfo true
                               [mkToolCall (group m "name") (VDict kwargs)]
                               None))).
Proof.
  split; [|split].
  - intros info H. unfold extract_tool_calls in H.
    destruct (search u _JSON_RE text) as [m|].
    + simpl in H. destruct (Json.loads (group m "params")); simpl in H;
        inversion H; subst; simpl; lia.
    + destruct (search u _PY_RE text) as [m|].
      * simpl in H.
        destruct (match Str.strip (group m "args") with
                  | [] => Return []
                  | _ :: _ => _
                  end); simpl in H; inversion H; subst; simpl; lia.
      * simpl in H. inversion H; subst; simpl; lia.
  - intros m H. split.
    + apply ReFacts.search_leftmost; exact H.
    + unfold extract_tool_calls. rewrite H. simpl.
      destruct (Json.loads (group m "params")); reflexivity.
  - intros Hj. split.
    + apply ReFacts.search_nowhere; exact Hj.
    + intros m H. split.
      * apply ReFacts.search_leftmost; exact H.
      * unfold extract_tool_calls. rewrite Hj, H. simpl.
        destruct (match Str.strip (group m "args") with
                  | [] => Return []
                  | _ :: _ => _
                  end); reflexivity.
Qed.

(** Later occurrences are not looked at, and a structured call wins over
    an ipython call that comes before it in the text. *)
Lemma first_of_two_calls :
  extract_tool_calls u two_calls_text request
  = Return (mkInfo true [mkToolCall (py "a") (VDict [])] None).
Proof. vm_compute. reflexivity. Qed.

Lemma structured_before_ipython :
  extract_tool_calls u mixed_text request
  = Return (mkInfo true [mkToolCall (py "c") (VDict [(py "x", VInt 1)])]
                   None).
Proof. vm_compute. reflexivity. Qed.

(** *** The ipython form without arguments *)

(** C9: when the call that is found is an ipython call whose capture
    between the parentheses is empty or white space only, the extraction
    returns that call with an empty dictionary of arguments; nothing is
    raised. *)
Theorem empty_call_arguments (text : str) (m : Match) :
  search u _JSON_RE text = None ->
  search u _PY_RE text = Some m ->
  Str.strip (group m "args") = [] ->
  extract_tool_calls u text request
  = Return (mkInfo true [mkToolCall (group m "name") (VDict [])] None).
Proof.
  intros Hj Hp Hs. unfold extract_tool_calls.
  rewrite Hj, Hp. simpl. rewrite Hs. reflexivity.
Qed.

(** On the turns of the template's own shape: the marker, a name, [.call(],
    white space only, the closing parenthesis, and any text in which
    [_JSON_RE] finds nothing. *)
Lemma empty_call_match (name ws rest : str) :
  name <> [] ->
  forallb (in_cset u Word) name = true ->
  forallb Str.isspace ws = true ->
  match_here u _PY_RE
             (_PYTHON_TAG ++ name ++ py ".call(" ++ ws ++ py ")" ++ rest)
  = Some (rest, [("args"%string, ws); ("name"%string, name)]).
Proof.
  intros Hn Hw Hs. unfold match_here, _PY_RE.
  cbn [run].
  change (py "<|python_tag|>") with _PYTHON_TAG.
  rewrite ReFacts.strip_prefix_app.
  destruct name as [|x name]; [congruence|].
  cbn [forallb] in Hw. apply andb_prop in Hw. destruct Hw as [Hx Hw].
  cbn [app]. rewrite Hx.
  apply ReFacts.greedy_app; [exact Hw|].
  set (t1 := py ".call(" ++ ws ++ py ")" ++ rest).
  assert (Hg : forall K, greedy (in_cset u Word) t1 K = K t1)
    by (intros K; reflexivity).
  rewrite Hg. clear Hg.
  change (x :: name ++ t1) with ((x :: name) ++ t1).
  rewrite ReFacts.firstn_app_sub.
  unfold t1. rewrite ReFacts.strip_prefix_app.
  rewrite ReFacts.lazy_skip.
  - apply ReFacts.lazy_now.
    rewrite ReFacts.strip_prefix_app.
    change (ws ++ py ")" ++ rest) with (ws ++ (py ")" ++ rest)).
    rewrite ReFacts.firstn_app_sub. reflexivity.
  - revert Hs. apply StrFacts.forallb_weaken. reflexivity.
  - intros c s' Hin.
    rewrite forallb_forall in Hs. specialize (Hs c Hin).
    change (py ")") with [41%N]. cbn [Str.strip_prefix].
    destruct (N.eqb_spec 41 c) as [<-|]; [discriminate Hs | reflexivity].
Qed.

Lemma word_not_brace (c : N) :
  in_cset u Word c = true -> negb (N.eqb c 123) = true.
Proof.
  intros H. destruct (N.eqb_spec c 123) as [->|]; [discriminate H|].
  reflexivity.
Qed.

(** X8: a text made of the marker [<|python_tag|>], a name of word
    characters, [.call(], white space only, the closing parenthesis and any
    text in which [_JSON_RE] finds nothing is extracted as the call of that
    name with an empty dictionary. *)
Lemma empty_call_turn (name ws rest : str) :
  name <> [] ->
  forallb (in_cset u Word) name = true ->
  forallb Str.isspace ws = true ->
  search u _JSON_RE rest = None ->
  extract_tool_calls
    u (_PYTHON_TAG ++ name ++ py ".call(" ++ ws ++ py ")" ++ rest) request
  = Return (mkInfo true [mkToolCall name (VDict [])] None).
Proof.
  intros Hn Hw Hs Hr.
  assert (Hj : search u _JSON_RE
                      (_PYTHON_TAG ++ name ++ py ".call(" ++ ws ++ py ")"
                                   ++ rest) = None).
  { replace (_PYTHON_TAG ++ name ++ py ".call(" ++ ws ++ py ")" ++ rest)
      with ((_PYTHON_TAG ++ name ++ py ".call(" ++ ws ++ py ")") ++ rest)
      by (rewrite <- !app_assoc; reflexivity).
    apply ReFacts.JSON_RE_after; [|exact Hr].
    rewrite !forallb_app.
    rewrite (StrFacts.forallb_weaken _ _ name word_not_brace Hw).
    rewrite (StrFacts.forallb_weaken
               _ _ ws (fun c => StrFacts.isspace_not 123 c eq_refl) Hs).
    reflexivity. }
  pose proof (ReFacts.search_from_here u _PY_RE 0 _ _ _
                (empty_call_match name ws rest Hn Hw Hs)) as Hp.
  unfold extract_tool_calls. rewrite Hj. unfold search. rewrite Hp.
  change (group _ "args") with ws. change (group _ "name") with name.
  rewrite (proj2 (StrFacts.strip_blank ws) Hs). reflexivity.
Qed.

End ParserProperties.

(** ** The properties at concrete turns

    The table of the interpreter is taken empty outside ASCII, the request
    is the one [adjust_request] leaves. *)

Lemma malformed_parameters_raise_witness :
  search (fun _ => false) _JSON_RE bad_json_text
  = Some (mkMatch 0 39 [("params"%string, py "{bad json}");
                        ("name"%string, py "x")])
  /\ Json.loads (py "{bad json}") = Raise JSONDecodeError
  /\ extract_tool_calls (fun _ => false) bad_json_text (mkRequest false)
     = Raise JSONDecodeError.
Proof.
  assert (Hm : search (fun _ => false) _JSON_RE bad_json_text
               = Some (mkMatch 0 39 [("params"%string, py "{bad json}");
                                     ("name"%string, py "x")]))
    by (vm_compute; reflexivity).
  assert (Hl : Json.loads (py "{bad json}") = Raise JSONDecodeError)
    by (vm_compute; reflexivity).
  split; [exact Hm | split; [exact Hl |]].
  exact (proj1 (malformed_parameters_raise (fun _ => false) (mkRequest false)
                                           bad_json_text _ Hm Hl)).
Defined.

Lemma no_terminator_no_output_witness :
  Str.contains _EOT open_text = false
  /\ Str.contains _EOM open_text = false
  /\ extract_tool_calls (fun _ => false) open_text (mkRequest false)
     = Return (mkInfo true [mkToolCall (py "f") (VDict [])] None)
  /\ extract_tool_calls_streaming (fun _ => false) [] open_text open_text
                                  [] [] [] (mkRequest false)
     = Return None
  /\ nth_error (stream (fun _ => false) [] [open_text; _EOT] (mkRequest false))
               0
     = Some (Return None).
Proof.
  assert (H1 : Str.contains _EOT open_text = false) by reflexivity.
  assert (H2 : Str.contains _EOM open_text = false) by reflexivity.
  split; [exact H1 | split; [exact H2 | split; [vm_compute; reflexivity|]]].
  split.
  - exact (proj1 (no_terminator_no_output (fun _ => false) (mkRequest false))
                 [] open_text open_text [] [] [] H1 H2).
  - apply (proj2 (no_terminator_no_output (fun _ => false) (mkRequest false))
                 [open_text; _EOT] 0 open_text); reflexivity.
Defined.

Lemma terminator_without_match_no_output_witness :
  Str.contains _EOT plain_text = true
  /\ extract_tool_calls (fun _ => false) plain_text (mkRequest false)
     = Return (mkInfo false [] (Some plain_text))
  /\ extract_tool_calls_streaming (fun _ => false) [] plain_text plain_text
                                  [] [] [] (mkRequest false)
     = Return None.
Proof.
  assert (Ht : Str.contains _EOT plain_text = true) by reflexivity.
  split; [exact Ht|].
  apply (terminator_without_match_no_output
           (fun _ => false) (mkRequest false) [] plain_text plain_text
           [] [] []).
  - left; exact Ht.
  - vm_compute; reflexivity.
  - vm_compute; reflexivity.
Defined.

Lemma at_most_one_invocation_witness :
  extract_tool_calls (fun _ => false) two_calls_text (mkRequest false)
  = Return (mkInfo true [mkToolCall (py "a") (VDict [])] None)
  /\ List.length
       (tool_calls (mkInfo true [mkToolCall (py "a") (VDict [])] None)) <= 1.
Proof.
  assert (He : extract_tool_calls (fun _ => false) two_calls_text
                                  (mkRequest false)
               = Return (mkInfo true [mkToolCall (py "a") (VDict [])] None))
    by (vm_compute; reflexivity).
  split; [exact He|].
  exact (proj1 (at_most_one_invocation (fun _ => false) (mkRequest false)
                                       two_calls_text) _ He).
Defined.

Lemma empty_call_arguments_witness :
  search (fun _ => false) _JSON_RE ping_text = None
  /\ search (fun _ => false) _PY_RE ping_text
     = Some (mkMatch 0 26 [("args"%string, py " "); ("name"%string, py "ping")])
  /\ extract_tool_calls (fun _ => false) ping_text (mkRequest false)
     = Return (mkInfo true [mkToolCall (py "ping") (VDict [])] None).
Proof.
  assert (Hj : search (fun _ => false) _JSON_RE ping_text = None)
    by (vm_compute; reflexivity).
  assert (Hp : search (fun _ => false) _PY_RE ping_text
               = Some (mkMatch 0 26 [("args"%string, py " ");
                                     ("name"%string, py "ping")]))
    by (vm_compute; reflexivity).
  split; [exact Hj | split; [exact Hp |]].
  apply (empty_call_arguments (fun _ => false) (mkRequest false)
                              ping_text _ Hj Hp).
  reflexivity.
Defined.

(** * More of the parser

    What the patterns capture, what the loop over the pieces builds, and
    how the gate behaves over a stream. *)

(** ** What a match looks like *)

Section Shape.

Variable u : N -> bool.

Lemma strip_prefix_inv (l s s' : str) :
  Str.strip_prefix l s = Some s' -> s = l ++ s'.
Proof.
  revert s; induction l as [|a l IH]; intros s H; simpl in H.
  - inversion H; reflexivity.
  - destruct s as [|b s]; [discriminate|].
    destruct (N.eqb_spec a b) as [->|]; [|discriminate].
    simpl. f_equal. apply IH; exact H.
Qed.

Lemma greedy_split (p : N -> bool) (k : str -> answer) (a : str * groups) :
  forall s,
    greedy p s k = Some a ->
    exists l s', s = l ++ s' /\ forallb p l = true /\ k s' = Some a.
Proof.
  induction s as [|c s IH]; simpl; intros H.
  - exists [], []; auto.
  - destruct (p c) eqn:Hc; [|exists [], (c :: s); auto].
    destruct (greedy p s k) as [b|] eqn:E.
    + inversion H; subst b.
      destruct (IH eq_refl) as (l & s' & -> & Hl & Hk).
      exists (c :: l), s'; simpl; rewrite Hc; auto.
    + exists [], (c :: s); auto.
Qed.

(** A lazy repetition stops at the first place where the rest of the
    pattern goes through. *)
Lemma lazy_split (p : N -> bool) (k : str -> answer) (a : str * groups) :
  forall s,
    lazy p s k = Some a ->
    exists l s',
      s = l ++ s' /\ forallb p l = true /\ k s' = Some a
      /\ forall l1 c l2, l = l1 ++ c :: l2 -> k (c :: l2 ++ s') = None.
Proof.
  induction s as [|c s IH]; simpl; intros H.
  - destruct (k []) eqn:E; [|discriminate].
    inversion H; subst. exists [], []. repeat split; auto.
    intros [|? ?] ? ? ?; discriminate.
  - destruct (k (c :: s)) eqn:E.
    + inversion H; subst. exists [], (c :: s). repeat split; auto.
      intros [|? ?] ? ? ?; discriminate.
    + destruct (p c) eqn:Hc; [|discriminate].
      destruct (IH H) as (l & s' & -> & Hl & Hk & Hmin).
      exists (c :: l), s'. simpl. rewrite Hc. repeat split; auto.
      intros [|x l1] c' l2 Heq; simpl in Heq; inversion Heq; subst.
      * exact E.
      * eapply Hmin; reflexivity.
Qed.

Lemma search_from_inv (r : re) (s : str) :
  forall pos m,
    search_from u r pos s = Some m ->
    exists pre post rest,
      s = pre ++ post
      /\ m_start m = pos + List.length pre
      /\ m_end m = m_start m + (List.length post - List.length rest)
      /\ match_here u r post = Some (rest, m_groups m).
Proof.
  induction s as [|c s IH]; intros pos m H; simpl in H.
  - destruct (match_here u r []) as [[rest g]|] eqn:E; [|discriminate].
    inversion H; subst; simpl. exists [], [], rest. simpl.
    repeat split; auto.
  - destruct (match_here u r (c :: s)) as [[rest g]|] eqn:E.
    + inversion H; subst; simpl. exists [], (c :: s), rest. simpl.
      repeat split; auto.
    + destruct (IH _ _ H) as (pre & post & rest & -> & Hs & He & Hm).
      exists (c :: pre), post, rest. simpl. repeat split; auto. lia.
Qed.

Lemma forallb_splits (q : N -> bool) (l : str) :
  (forall l1 c l2, l = l1 ++ c :: l2 -> q c = true) -> forallb q l = true.
Proof.
  induction l as [|x l IH]; intros H; simpl; [reflexivity|].
  rewrite (H [] x l eq_refl). apply IH.
  intros l1 c l2 ->. apply (H (x :: l1) c l2). reflexivity.
Qed.

Lemma PY_RE_here (s rest : str) (g : groups) :
  match_here u _PY_RE s = Some (rest, g) ->
  exists name args,
    s = _PYTHON_TAG ++ name ++ py ".call(" ++ args ++ py ")" ++ rest
    /\ name <> [] /\ forallb (in_cset u Word) name = true
    /\ forallb (fun c => negb (N.eqb c 41)) args = true
    /\ g = [("args"%string, args); ("name"%string, name)].
Proof.
  intros H. unfold match_here, _PY_RE in H. cbn [run] in H.
  destruct (Str.strip_prefix (py "<|python_tag|>") s) as [s1|] eqn:E1;
    [|discriminate].
  apply strip_prefix_inv in E1. subst s.
  destruct s1 as [|x s1]; [discriminate|].
  destruct (in_cset u Word x) eqn:Hx; [|discriminate].
  apply greedy_split in H. destruct H as (l & s2 & -> & Hl & H).
  cbv beta in H.
  destruct (Str.strip_prefix (py ".call(") s2) as [s3|] eqn:E3;
    [|discriminate].
  apply strip_prefix_inv in E3. subst s2.
  apply lazy_split in H. destruct H as (args & s4 & -> & _ & H & Hmin).
  destruct (Str.strip_prefix (py ")") s4) as [s5|] eqn:E5; [|discriminate].
  apply strip_prefix_inv in E5. subst s4.
  change (x :: l ++ py ".call(" ++ args ++ py ")" ++ s5)
    with ((x :: l) ++ py ".call(" ++ args ++ py ")" ++ s5) in H.
  rewrite !ReFacts.firstn_app_sub in H. inversion H; subst; clear H.
  exists (x :: l), args. repeat split.
  - discriminate.
  - cbn [forallb]. rewrite Hx. exact Hl.
  - apply forallb_splits. intros l1 c l2 Heq.
    specialize (Hmin l1 c l2 Heq). cbv beta in Hmin.
    change (py ")") with [41%N] in Hmin. cbn [Str.strip_prefix] in Hmin.
    destruct (N.eqb_spec 41 c) as [<-|Hne]; [discriminate Hmin|].
    destruct (N.eqb_spec c 41); [congruence | reflexivity].
Qed.

Ltac lit H :=
  match type of H with
  | match Str.strip_prefix ?l ?s with _ => _ end = _ =>
      let E := fresh "E" in
      destruct (Str.strip_prefix l s) eqn:E; [|discriminate H];
      apply strip_prefix_inv in E; subst s
  end.

Tactic Notation "star" hyp(H) ident(w) ident(Hw) :=
  apply greedy_split in H; destruct H as (w & ? & -> & Hw & H);
  cbv beta in H.

Lemma startswith_two (a b c d : N) (t : str) :
  Str.startswith [a; b] (c :: d :: t) = N.eqb a c && N.eqb b d.
Proof.
  unfold Str.startswith. cbn [Str.strip_prefix].
  destruct (N.eqb a c), (N.eqb b d); reflexivity.
Qed.

Lemma no_double_brace (body rest : str) :
  (forall l1 c l2,
      body = l1 ++ c :: l2 ->
      Str.startswith (py "}}") (c :: l2 ++ py "}" ++ py "}" ++ rest) = false) ->
  Str.contains (py "}}") (py "{" ++ body ++ py "}") = false.
Proof.
  intros H.
  change (py "{" ++ body ++ py "}") with (123%N :: body ++ [125%N]).
  cbn [Str.contains]. change (Str.startswith (py "}}") (123%N :: body ++ [125%N])) with false.
  cbn [orb].
  induction body as [|c b IH]; [reflexivity|].
  cbn [app Str.contains]. rewrite IH.
  - rewrite orb_false_r.
    specialize (H [] c b eq_refl).
    change (py "}}") with [125%N; 125%N] in *.
    change (py "}") with [125%N] in H.
    destruct b as [|d b]; cbn [app] in *; rewrite startswith_two in *;
      exact H.
  - intros l1 c' l2 ->. apply (H (c :: l1) c' l2). reflexivity.
Qed.

Lemma JSON_RE_here (s rest : str) (g : groups) :
  match_here u _JSON_RE s = Some (rest, g) ->
  exists w1 w2 name w3 w4 w5 w6 body,
    s = py "{`name`" ++ w1 ++ py ":" ++ w2 ++ py "`" ++ name ++ py "`"
        ++ w3 ++ py "," ++ w4 ++ py "`parameters`" ++ w5 ++ py ":" ++ w6
        ++ (py "{" ++ body ++ py "}") ++ py "}" ++ rest
    /\ forallb Str.isspace (w1 ++ w2 ++ w3 ++ w4 ++ w5 ++ w6) = true
    /\ name <> []
    /\ forallb (fun c => negb (N.eqb c 34)) name = true
    /\ Str.contains (py "}}") (py "{" ++ body ++ py "}") = false
    /\ g = [("params"%string, py "{" ++ body ++ py "}");
            ("name"%string, name)].
Proof.
  intros H. unfold match_here, _JSON_RE in H. cbn [run] in H.
  lit H. star H w1 Hw1. lit H. star H w2 Hw2. lit H.
  match type of H with
  | match ?s with _ => _ end = _ => destruct s as [|x s1]; [discriminate|]
  end.
  destruct (in_cset u (NotChr 34) x) eqn:Hx; [|discriminate].
  star H name Hname. lit H. star H w3 Hw3. lit H. star H w4 Hw4. lit H.
  star H w5 Hw5. lit H. star H w6 Hw6. lit H.
  apply lazy_split in H. destruct H as (body & s' & -> & _ & H & Hmin).
  cbv beta in H. lit H. lit H.
  replace (py "{" ++ body ++ py "}" ++ py "}" ++ s0)
    with ((py "{" ++ body ++ py "}") ++ py "}" ++ s0) in H
    by (rewrite <- !app_assoc; reflexivity).
  rewrite app_comm_cons in H.
  rewrite !ReFacts.firstn_app_sub in H. inversion H; subst; clear H.
  exists w1, w2, (x :: name), w3, w4, w5, w6, body.
  change (in_cset u Space) with Str.isspace in *.
  split; [rewrite <- !app_assoc; reflexivity|].
  split; [rewrite !forallb_app, Hw1, Hw2, Hw3, Hw4, Hw5, Hw6; reflexivity|].
  split; [discriminate|].
  split; [cbn [forallb]; change (negb (N.eqb x 34))
            with (in_cset u (NotChr 34) x); rewrite Hx; exact Hname|].
  split; [|reflexivity].
  apply no_double_brace with (rest := rest).
  intros l1 c l2 Heq. specialize (Hmin l1 c l2 Heq).
  unfold Str.startswith.
  destruct (Str.strip_prefix (py "}}") (c :: l2 ++ py "}" ++ py "}" ++ rest))
    as [t|] eqn:E; [|reflexivity].
  apply strip_prefix_inv in E.
  change (py "}}" ++ t) with (py "}" ++ py "}" ++ t) in E.
  rewrite E in Hmin. rewrite !ReFacts.strip_prefix_app in Hmin.
  discriminate Hmin.
Qed.

Lemma contains_intro (sub pre post : str) :
  Str.contains sub (pre ++ sub ++ post) = true.
Proof.
  induction pre as [|c pre IH]; cbn [app].
  - destruct (sub ++ post) eqn:E; cbn [Str.contains]; unfold Str.startswith;
      rewrite <- E, ReFacts.strip_prefix_app; reflexivity.
  - cbn [Str.contains]. rewrite IH. apply orb_true_r.
Qed.

Lemma contains_inv (sub : str) :
  forall s, Str.contains sub s = true ->
            exists pre post, s = pre ++ sub ++ post.
Proof.
  assert (Hs : forall s, Str.startswith sub s = true ->
                         exists post, s = sub ++ post).
  { intros s H. unfold Str.startswith in H.
    destruct (Str.strip_prefix sub s) as [t|] eqn:E; [|discriminate].
    exists t. apply strip_prefix_inv; exact E. }
  induction s as [|c s IH]; cbn [Str.contains]; intros H.
  - rewrite orb_false_r in H. destruct (Hs _ H) as [post ->].
    exists [], post; reflexivity.
  - apply orb_prop in H. destruct H as [H|H].
    + destruct (Hs _ H) as [post ->]. exists [], post; reflexivity.
    + destruct (IH H) as (pre & post & ->).
      exists (c :: pre), post; reflexivity.
Qed.

Lemma contains_app_l (sub s t : str) :
  Str.contains sub s = true -> Str.contains sub (s ++ t) = true.
Proof.
  intros H. apply contains_inv in H. destruct H as (pre & post & ->).
  rewrite <- !app_assoc. apply contains_intro.
Qed.

(** What a successful search says about the text. *)
Lemma JSON_RE_found (text : str) (m : Match) :
  search u _JSON_RE text = Some m ->
  exists pre w1 w2 w3 w4 w5 w6 body post,
    text = pre ++ py "{`name`" ++ w1 ++ py ":" ++ w2 ++ py "`"
           ++ group m "name" ++ py "`" ++ w3 ++ py "," ++ w4
           ++ py "`parameters`" ++ w5 ++ py ":" ++ w6
           ++ group m "params" ++ py "}" ++ post
    /\ m_start m = List.length pre
    /\ forallb Str.isspace (w1 ++ w2 ++ w3 ++ w4 ++ w5 ++ w6) = true
    /\ group m "name" <> []
    /\ forallb (fun c => negb (N.eqb c 34)) (group m "name") = true
    /\ group m "params" = py "{" ++ body ++ py "}"
    /\ Str.contains (py "}}") (group m "params") = false.
Proof.
  intros H. apply search_from_inv in H.
  destruct H as (pre & post & rest & -> & Hs & _ & Hm).
  apply JSON_RE_here in Hm.
  destruct Hm as (w1 & w2 & name & w3 & w4 & w5 & w6 & body
                  & -> & Hw & Hn & Hq & Hb & Hg).
  unfold group. rewrite Hg. cbn [lookup String.eqb Ascii.eqb Bool.eqb].
  exists pre, w1, w2, w3, w4, w5, w6, body, rest.
  repeat split; auto.
Qed.

Lemma PY_RE_found (text : str) (m : Match) :
  search u _PY_RE text = Some m ->
  exists pre post,
    text = pre ++ _PYTHON_TAG ++ group m "name" ++ py ".call("
           ++ group m "args" ++ py ")" ++ post
    /\ m_start m = List.length pre
    /\ group m "name" <> []
    /\ forallb (in_cset u Word) (group m "name") = true
    /\ forallb (fun c => negb (N.eqb c 41)) (group m "args") = true.
Proof.
  intros H. apply search_from_inv in H.
  destruct H as (pre & post & rest & -> & Hs & _ & Hm).
  apply PY_RE_here in Hm.
  destruct Hm as (name & args & -> & Hn & Hw & Ha & Hg).
  unfold group. rewrite Hg. cbn [lookup String.eqb Ascii.eqb Bool.eqb].
  exists pre, rest. repeat split; auto.
Qed.

(** X3: a match of [_JSON_RE] lies in the text as [{"name"], a colon, a
    double quote, the name capture, a double quote, a comma, ["parameters"],
    a colon, the params capture and a closing brace, with white space only
    around the colons and the comma.  The name capture is not empty and
    holds no double quote; the params capture goes from an opening brace
    to a closing brace and never holds two closing braces in a row. *)
Theorem structured_match_shape (text : str) (m : Match) :
  search u _JSON_RE text = Some m ->
  exists pre w1 w2 w3 w4 w5 w6 body post,
    text = pre ++ py "{`name`" ++ w1 ++ py ":" ++ w2 ++ py "`"
           ++ group m "name" ++ py "`" ++ w3 ++ py "," ++ w4
           ++ py "`parameters`" ++ w5 ++ py ":" ++ w6
           ++ group m "params" ++ py "}" ++ post
    /\ m_start m = List.length pre
    /\ forallb Str.isspace (w1 ++ w2 ++ w3 ++ w4 ++ w5 ++ w6) = true
    /\ group m "name" <> []
    /\ forallb (fun c => negb (N.eqb c 34)) (group m "name") = true
    /\ group m "params" = py "{" ++ body ++ py "}"
    /\ Str.contains (py "}}") (group m "params") = false.
Proof. intros H. apply JSON_RE_found. exact H. Qed.

(** X4: a match of [_PY_RE] lies in the text as the marker
    [<|python_tag|>], the name capture, [.call(], the args capture and a
    closing parenthesis.  The name capture is not empty and made of word
    characters; the args capture holds no closing parenthesis: it ends at
    the first one after [.call(]. *)
Theorem ipython_match_shape (text : str) (m : Match) :
  search u _PY_RE text = Some m ->
  exists pre post,
    text = pre ++ _PYTHON_TAG ++ group m "name" ++ py ".call("
           ++ group m "args" ++ py ")" ++ post
    /\ m_start m = List.length pre
    /\ group m "name" <> []
    /\ forallb (in_cset u Word) (group m "name") = true
    /\ forallb (fun c => negb (N.eqb c 41)) (group m "args") = true.
Proof. intros H. apply PY_RE_found. exact H. Qed.

(** X19: in a match of either pattern both named groups are set, so that
    [m.group] never reads an unset group. *)
Theorem groups_always_set (text : str) (m : Match) :
  (search u _JSON_RE text = Some m ->
   bound "name" (m_groups m) /\ bound "params" (m_groups m))
  /\ (search u _PY_RE text = Some m ->
      bound "name" (m_groups m) /\ bound "args" (m_groups m)).
Proof.
  split; intros H; split;
    eapply ReFacts.search_from_groups; try exact H; simpl; auto.
Qed.

End Shape.

(** ** Values, dictionaries and pieces *)

Lemma JSONObject_dict (n : nat) :
  forall s d v r, JSONObject n s d = Parsed v r -> exists d', v = VDict d'.
Proof.
  induction n as [|n IH]; intros s d v r H; [discriminate|].
  simpl in H. JsonFacts.break_all; try discriminate.
  - inversion H; eauto.
  - eapply IH; exact H.
Qed.

Lemma JSONArray_list (n : nat) :
  forall s a v r, JSONArray n s a = Parsed v r -> exists l, v = VList l.
Proof.
  induction n as [|n IH]; intros s a v r H; [discriminate|].
  simpl in H. JsonFacts.break_all; try discriminate.
  - inversion H; eauto.
  - eapply IH; exact H.
Qed.

Lemma loads_object (t : str) (v : value) :
  Json.loads (123%N :: t) = Return v -> exists d, v = VDict d.
Proof.
  unfold Json.loads.
  change (skip_ws (123%N :: t)) with (123%N :: t).
  cbn [scan_once]. change (N.eqb 123 34) with false.
  change (N.eqb 123 123) with true. cbv iota.
  intros H. JsonFacts.break_all; try discriminate;
    inversion H; subst; clear H;
    match goal with
    | E : Parsed _ _ = Parsed _ _ |- _ => inversion E; subst; eauto
    | E : JSONObject _ _ _ = Parsed _ _ |- _ => apply JSONObject_dict in E; exact E
    end.
Qed.

Lemma loads_array (t : str) (v : value) :
  Json.loads (91%N :: t) = Return v -> exists l, v = VList l.
Proof.
  unfold Json.loads.
  change (skip_ws (91%N :: t)) with (91%N :: t).
  cbn [scan_once]. change (N.eqb 91 34) with false.
  change (N.eqb 91 123) with false. change (N.eqb 91 91) with true.
  cbv iota.
  intros H. JsonFacts.break_all; try discriminate;
    inversion H; subst; clear H;
    match goal with
    | E : Parsed _ _ = Parsed _ _ |- _ => inversion E; subst; eauto
    | E : JSONArray _ _ _ = Parsed _ _ |- _ => apply JSONArray_list in E; exact E
    end.
Qed.

Lemma loads_raises (s : str) (e : exn) :
  Json.loads s = Raise e -> e = JSONDecodeError.
Proof.
  unfold Json.loads. intros H.
  JsonFacts.break_all; inversion H; reflexivity.
Qed.




Lemma eqb_eq (a b : str) : Str.eqb a b = true <-> a = b.
Proof.
  unfold Str.eqb. destruct (list_eq_dec N.eq_dec a b); split; congruence.
Qed.

(** *** Dictionaries *)

Lemma dict_set_in (d : dict) (k : str) (v : value) :
  forall k' v', In (k', v') (dict_set d k v) ->
                In (k', v') d \/ (k' = k /\ v' = v).
Proof.
  induction d as [|[k0 v0] d IH]; simpl; intros k' v' H.
  - destruct H as [H|[]]. inversion H; auto.
  - destruct (Str.eqb k0 k) eqn:E.
    + apply eqb_eq in E. subst k0. destruct H as [H|H]; [|auto].
      inversion H; auto.
    + destruct H as [H|H]; [auto|].
      apply IH in H. tauto.
Qed.

Lemma dict_set_key_in (d : dict) (k : str) (v : value) (x : str) :
  In x (keys (dict_set d k v)) -> In x (keys d) \/ x = k.
Proof.
  unfold keys. intros H. apply in_map_iff in H.
  destruct H as ([k' v'] & <- & H). apply dict_set_in in H.
  destruct H as [H | [-> _]]; [left | right; reflexivity].
  apply in_map_iff. exists (k', v'); auto.
Qed.

Lemma dict_set_nodup (d : dict) (k : str) (v : value) :
  NoDup (keys d) -> NoDup (keys (dict_set d k v)).
Proof.
  unfold keys. induction d as [|[k0 v0] d IH]; simpl; intros H.
  - constructor; [intros [] | constructor].
  - inversion H as [|? ? Hn Hd]; subst.
    destruct (Str.eqb k0 k) eqn:E; simpl.
    + constructor; assumption.
    + constructor; [|auto].
      intros Hin. apply dict_set_key_in in Hin.
      destruct Hin as [Hin | ->]; [contradiction|].
      assert (Str.eqb k k = true) by (apply eqb_eq; reflexivity).
      congruence.
Qed.

Lemma dict_set_has (d : dict) (k : str) (v : value) :
  In (k, v) (dict_set d k v).
Proof.
  induction d as [|[k0 v0] d IH]; simpl; [auto|].
  destruct (Str.eqb k0 k) eqn:E.
  - apply eqb_eq in E. subst. left; reflexivity.
  - right; exact IH.
Qed.

(** *** Cutting a piece at the first equals sign *)

Lemma split1_from_cases (sep : N) (s : str) :
  forall cur,
    (forallb (fun c => negb (N.eqb c sep)) s = true
     /\ Str.split1_from sep cur s = [rev cur ++ s])
    \/ (exists k v,
           s = k ++ sep :: v
           /\ forallb (fun c => negb (N.eqb c sep)) k = true
           /\ Str.split1_from sep cur s = [rev cur ++ k; v]).
Proof.
  induction s as [|c s IH]; intros cur; simpl.
  - left. rewrite app_nil_r. auto.
  - destruct (N.eqb_spec c sep) as [->|Hne].
    + right. exists [], s. rewrite app_nil_r. auto.
    + destruct (IH (c :: cur)) as [[Hs He] | (k & v & -> & Hk & He)].
      * left. cbn [rev] in He. rewrite <- app_assoc in He. simpl. auto.
      * right. exists (c :: k), v. cbn [rev] in He.
        rewrite <- app_assoc in He. simpl.
        destruct (N.eqb_spec c sep); [contradiction|]. simpl. auto.
Qed.

Lemma split1_cases (sep : N) (s : str) :
  (forallb (fun c => negb (N.eqb c sep)) s = true
   /\ Str.split1 sep s = [s])
  \/ (exists k v,
         s = k ++ sep :: v
         /\ forallb (fun c => negb (N.eqb c sep)) k = true
         /\ Str.split1 sep s = [k; v]).
Proof. exact (split1_from_cases sep s []). Qed.

(** The pieces of [split] hold no separator. *)
Lemma split_from_pieces (sep : N) (s : str) :
  forall cur,
    forallb (fun c => negb (N.eqb c sep)) cur = true ->
    Forall (fun p => forallb (fun c => negb (N.eqb c sep)) p = true)
           (Str.split_from sep cur s).
Proof.
  induction s as [|c s IH]; intros cur Hc; simpl.
  - constructor; [|constructor]. rewrite StrFacts.forallb_rev. exact Hc.
  - destruct (N.eqb c sep) eqn:E.
    + constructor; [rewrite StrFacts.forallb_rev; exact Hc|].
      apply IH. reflexivity.
    + apply IH. simpl. rewrite E, Hc. reflexivity.
Qed.

(** *** Stripping *)

Lemma lstrip_head (p : N -> bool) (s : str) :
  match Str.lstrip p s with
  | [] => True
  | c :: _ => p c = false
  end.
Proof.
  induction s as [|c s IH]; simpl; [exact I|].
  destruct (p c) eqn:E; [exact IH | exact E].
Qed.

Lemma lstrip_suffix (p : N -> bool) (s : str) :
  exists l, s = l ++ Str.lstrip p s.
Proof.
  induction s as [|c s [l IH]]; simpl; [exists []; reflexivity|].
  destruct (p c); [|exists []; reflexivity].
  exists (c :: l). simpl. f_equal. exact IH.
Qed.

Lemma rstrip_prefix (p : N -> bool) (s : str) :
  exists l, s = Str.rstrip p s ++ l.
Proof.
  unfold Str.rstrip. destruct (lstrip_suffix p (rev s)) as [l H].
  exists (rev l). rewrite <- rev_app_distr, <- H, rev_involutive.
  reflexivity.
Qed.

Lemma forallb_lstrip (q p : N -> bool) (s : str) :
  forallb q s = true -> forallb q (Str.lstrip p s) = true.
Proof.
  intros H. destruct (lstrip_suffix p s) as [l E].
  rewrite E, forallb_app in H. apply andb_prop in H. tauto.
Qed.

Lemma forallb_rstrip (q p : N -> bool) (s : str) :
  forallb q s = true -> forallb q (Str.rstrip p s) = true.
Proof.
  intros H. destruct (rstrip_prefix p s) as [l E].
  rewrite E, forallb_app in H. apply andb_prop in H. tauto.
Qed.

Lemma strip_both_trimmed (p : N -> bool) (s : str) :
  trimmed p (Str.rstrip p (Str.lstrip p s)).
Proof.
  set (t := Str.lstrip p s).
  assert (Ht : match t with [] => True | c :: _ => p c = false end)
    by apply lstrip_head.
  unfold trimmed.
  destruct (Str.rstrip p t) as [|c r] eqn:E; [exact I|].
  destruct (rstrip_prefix p t) as [l Hl]. rewrite E in Hl.
  split.
  - rewrite Hl in Ht. exact Ht.
  - unfold Str.rstrip in E.
    pose proof (lstrip_head p (rev t)) as Hh.
    destruct (Str.lstrip p (rev t)) as [|x y] eqn:E2; [discriminate E|].
    simpl in E. rewrite <- E.
    rewrite last_last. exact Hh.
Qed.


(** ** The loop over the pieces *)


Section Decoder.

Lemma startswith_char (a : N) (s : str) :
  Str.startswith [a] s = true -> exists t, s = a :: t.
Proof.
  unfold Str.startswith. destruct s as [|c t]; simpl; [discriminate|].
  destruct (N.eqb_spec a c) as [->|]; [eauto | discriminate].
Qed.

Lemma assigned_value_shape (v : str) (x : value) :
  assigned_value v = Return x ->
  is_container_or_str x /\ forall s, x = VStr s -> trimmed is_quote s.
Proof.
  unfold assigned_value.
  destruct (Str.startswith (py "{") (Str.strip v)) eqn:E1; cbn [orb].
  - apply (startswith_char 123) in E1. destruct E1 as [t ->].
    intros H. apply loads_object in H. destruct H as [d ->].
    split; [exact I | discriminate].
  - destruct (Str.startswith (py "[") (Str.strip v)) eqn:E2.
    + apply (startswith_char 91) in E2. destruct E2 as [t ->].
      intros H. apply loads_array in H. destruct H as [l ->].
      split; [exact I | discriminate].
    + intros H. inversion H; subst. split; [exact I|].
      intros s Hs. inversion Hs; subst.
      apply strip_both_trimmed.
Qed.

Lemma assigned_value_raises (v : str) (e : exn) :
  assigned_value v = Raise e -> e = JSONDecodeError.
Proof.
  unfold assigned_value.
  destruct (Str.startswith (py "{") (Str.strip v)
            || Str.startswith (py "[") (Str.strip v));
    [apply loads_raises | discriminate].
Qed.

Lemma for_pairs_cons (p : str) (rest : list str) (kwargs : dict) :
  for_pairs (p :: rest) kwargs
  = match Str.split1 (Str.chr "=") p with
    | [k; v] =>
        x <- assigned_value v ; for_pairs rest (dict_set kwargs (Str.strip k) x)
    | _ => Raise ValueError
    end.
Proof. reflexivity. Qed.

(** What holds of the dictionary before the loop and is kept by every
    assignment holds of the dictionary the loop returns. *)
Lemma for_pairs_invariant (P : dict -> Prop) (pairs : list str) :
  (forall d p k v x,
      In p pairs -> Str.split1 (Str.chr "=") p = [k; v] ->
      assigned_value v = Return x -> P d -> P (dict_set d (Str.strip k) x)) ->
  forall kwargs d,
    P kwargs -> for_pairs pairs kwargs = Return d -> P d.
Proof.
  induction pairs as [|p pairs IH]; intros Hstep kwargs d Hk H.
  - inversion H; subst; exact Hk.
  - rewrite for_pairs_cons in H.
    destruct (Str.split1 (Str.chr "=") p) as [|k [|v [|? ?]]] eqn:E;
      try discriminate.
    destruct (assigned_value v) as [x|e] eqn:Ed; [|discriminate].
    cbn [bind] in H.
    eapply IH; [| |exact H].
    + intros; eapply Hstep; eauto. right; assumption.
    + eapply Hstep; eauto. left; reflexivity.
Qed.

Lemma for_pairs_value_error (pairs : list str) :
  forall kwargs,
    for_pairs pairs kwargs = Raise ValueError ->
    exists p, In p pairs
              /\ forallb (fun c => negb (N.eqb c (Str.chr "="))) p = true.
Proof.
  induction pairs as [|p pairs IH]; intros kwargs H; [discriminate|].
  rewrite for_pairs_cons in H.
  destruct (split1_cases (Str.chr "=") p) as [[Hp E] | (k & v & _ & _ & E)].
  - exists p; split; [left; reflexivity | exact Hp].
  - rewrite E in H.
    destruct (assigned_value v) as [x|e] eqn:Ed; cbn [bind] in H.
    + apply IH in H. destruct H as (q & Hq & Hn).
      exists q; split; [right; exact Hq | exact Hn].
    + apply assigned_value_raises in Ed. congruence.
Qed.

Lemma for_pairs_no_equals (pairs : list str) :
  forall kwargs p,
    In p pairs ->
    forallb (fun c => negb (N.eqb c (Str.chr "="))) p = true ->
    exists e, for_pairs pairs kwargs = Raise e.
Proof.
  induction pairs as [|q pairs IH]; intros kwargs p Hin Hp; [contradiction|].
  rewrite for_pairs_cons.
  destruct Hin as [-> | Hin].
  - destruct (split1_cases (Str.chr "=") p) as [[_ E] | (k & v & -> & _ & _)].
    + rewrite E. exists ValueError; reflexivity.
    + rewrite forallb_app in Hp. apply andb_prop in Hp.
      destruct Hp as [_ Hp]. simpl in Hp. discriminate.
  - destruct (Str.split1 (Str.chr "=") q) as [|k [|v [|? ?]]];
      try (exists ValueError; reflexivity).
    destruct (assigned_value v) as [x|e]; cbn [bind].
    + eapply IH; eassumption.
    + exists e; reflexivity.
Qed.

Lemma for_pairs_app (l1 l2 : list str) :
  forall kwargs,
    for_pairs (l1 ++ l2) kwargs
    = (d <- for_pairs l1 kwargs ; for_pairs l2 d).
Proof.
  induction l1 as [|p l1 IH]; intros kwargs; [reflexivity|].
  cbn [app]. rewrite !for_pairs_cons.
  destruct (Str.split1 (Str.chr "=") p) as [|k [|v [|? ?]]]; try reflexivity.
  destruct (assigned_value v) as [x|e]; cbn [bind]; [apply IH | reflexivity].
Qed.

End Decoder.

(** ** Outcomes *)

Lemma JSONObject_nodup (n : nat) :
  forall s d v r,
    JSONObject n s d = Parsed v r -> NoDup (keys d) ->
    exists d', v = VDict d' /\ NoDup (keys d').
Proof.
  induction n as [|n IH]; intros s d v r H Hd; [discriminate|].
  simpl in H. JsonFacts.break_all; try discriminate.
  - inversion H; subst. eexists; split; [reflexivity|].
    apply dict_set_nodup; exact Hd.
  - eapply IH; [exact H|]. apply dict_set_nodup; exact Hd.
Qed.

Lemma loads_object_nodup (t : str) (v : value) :
  Json.loads (123%N :: t) = Return v ->
  exists d, v = VDict d /\ NoDup (keys d).
Proof.
  unfold Json.loads.
  change (skip_ws (123%N :: t)) with (123%N :: t).
  cbn [scan_once]. change (N.eqb 123 34) with false.
  change (N.eqb 123 123) with true. cbv iota.
  intros H. JsonFacts.break_all; try discriminate;
    inversion H; subst; clear H;
    match goal with
    | E : Parsed _ _ = Parsed _ _ |- _ =>
        inversion E; subst; exists []; split; [reflexivity | constructor]
    | E : JSONObject _ _ _ = Parsed _ _ |- _ =>
        apply JSONObject_nodup in E; [exact E | constructor]
    end.
Qed.

Section More.

Variable u : N -> bool.
Variable request : ChatCompletionRequest.

(** X1: a text that holds neither the text [{"name"] nor the marker
    [<|python_tag|>] is returned whole as the content, with [tools_called]
    false and no call. *)
Theorem plain_text_returned (text : str) :
  Str.contains (py "{`name`") text = false ->
  Str.contains _PYTHON_TAG text = false ->
  extract_tool_calls u text request = Return (mkInfo false [] (Some text)).
Proof.
  intros Hj Hp. unfold extract_tool_calls.
  destruct (search u _JSON_RE text) as [m|] eqn:Ej.
  { apply JSON_RE_found in Ej.
    destruct Ej as (pre & w1 & w2 & w3 & w4 & w5 & w6 & body & post & E & _).
    rewrite E, contains_intro in Hj. discriminate. }
  destruct (search u _PY_RE text) as [m|] eqn:Ep.
  { apply PY_RE_found in Ep. destruct Ep as (pre & post & E & _).
    rewrite E, contains_intro in Hp. discriminate. }
  reflexivity.
Qed.

Lemma structured_outcome (text : str) (m : Match)
      (info : ExtractedToolCallInformation) :
  search u _JSON_RE text = Some m ->
  extract_tool_calls u text request = Return info ->
  exists d,
    Json.loads (group m "params") = Return (VDict d)
    /\ NoDup (keys d)
    /\ info = mkInfo true [mkToolCall (group m "name") (VDict d)] None.
Proof.
  intros Hm H. unfold extract_tool_calls in H. rewrite Hm in H.
  apply JSON_RE_found in Hm.
  destruct Hm as (pre & w1 & w2 & w3 & w4 & w5 & w6 & body & post
                  & _ & _ & _ & _ & _ & Hb & _).
  cbv zeta in H.
  destruct (Json.loads (group m "params")) as [v|e] eqn:El;
    [|discriminate].
  rewrite Hb in El. change (py "{" ++ body ++ py "}")
    with (123%N :: body ++ py "}") in El.
  apply loads_object_nodup in El. destruct El as (d & -> & Hd).
  exists d. cbn in H. inversion H. auto.
Qed.

Lemma ipython_outcome (text : str) (m : Match)
      (info : ExtractedToolCallInformation) :
  search u _JSON_RE text = None ->
  search u _PY_RE text = Some m ->
  extract_tool_calls u text request = Return info ->
  exists d,
    info = mkInfo true [mkToolCall (group m "name") (VDict d)] None
    /\ ((Str.strip (group m "args") = [] /\ d = [])
        \/ (Str.strip (group m "args") <> []
            /\ for_pairs (Str.split (Str.chr ",") (group m "args")) []
               = Return d)).
Proof.
  intros Hj Hm H. unfold extract_tool_calls in H. rewrite Hj, Hm in H.
  cbv zeta in H.
  destruct (Str.strip (group m "args")) as [|c t] eqn:E.
  - cbn in H. inversion H. exists []. auto.
  - destruct (for_pairs (Str.split (Str.chr ",") (group m "args")) [])
      as [d|e] eqn:Ef; [|discriminate].
    cbn in H. inversion H. exists d. split; [reflexivity|].
    right. split; [discriminate | reflexivity].
Qed.

(** X2: an outcome is of one of two kinds: exactly one call, whose
    arguments are a dictionary without repeated keys, with [tools_called]
    true and no content; or no call, [tools_called] false and the whole
    text as content. *)
Theorem outcome_shape (text : str) (info : ExtractedToolCallInformation) :
  extract_tool_calls u text request = Return info ->
  (exists call d,
      info = mkInfo true [call] None /\ arguments call = VDict d
      /\ NoDup (keys d))
  \/ info = mkInfo false [] (Some text).
Proof.
  intros H.
  destruct (search u _JSON_RE text) as [m|] eqn:Ej.
  { destruct (structured_outcome text m info Ej H) as (d & _ & Hd & ->).
    left. eexists _, d. repeat split; auto. }
  destruct (search u _PY_RE text) as [m|] eqn:Ep.
  { destruct (ipython_outcome text m info Ej Ep H) as (d & -> & Hd).
    left. eexists _, d. repeat split.
    destruct Hd as [[_ ->] | [_ Hf]]; [constructor|].
    revert Hf. apply for_pairs_invariant with (P := fun d => NoDup (keys d)).
    - intros; apply dict_set_nodup; assumption.
    - constructor. }
  right. unfold extract_tool_calls in H. rewrite Ej, Ep in H.
  inversion H; reflexivity.
Qed.


Lemma ipython_entry (text : str) (m : Match)
      (info : ExtractedToolCallInformation) (call : ToolCall) (d : dict)
      (k : str) (v : value) :
  search u _JSON_RE text = None ->
  search u _PY_RE text = Some m ->
  extract_tool_calls u text request = Return info ->
  In call (tool_calls info) -> arguments call = VDict d -> In (k, v) d ->
  (trimmed Str.isspace k /\ no_char (Str.chr "=") k = true
   /\ no_char (Str.chr ",") k = true)
  /\ is_container_or_str v
  /\ forall s, v = VStr s -> trimmed is_quote s.
Proof.
  intros Hj Hm H Hc Ha Hin.
  destruct (ipython_outcome text m info Hj Hm H) as (d0 & -> & Hd).
  destruct Hc as [<- | []]. inversion Ha; subst d0. clear Ha.
  destruct Hd as [[_ ->] | [_ Hf]]; [contradiction|].
  revert k v Hin.
  refine (for_pairs_invariant
            (fun d => forall k v, In (k, v) d ->
               (trimmed Str.isspace k /\ no_char (Str.chr "=") k = true
                /\ no_char (Str.chr ",") k = true)
               /\ is_container_or_str v
               /\ forall s, v = VStr s -> trimmed is_quote s)
            _ _ [] d _ Hf); [|intros ? ? []].
  intros d1 p k1 v1 x Hp Hs Hdec IH k v Hin.
  apply dict_set_in in Hin. destruct Hin as [Hin | [-> ->]]; [auto|].
  split; [|apply (assigned_value_shape v1); exact Hdec].
  pose proof (split_from_pieces (Str.chr ",") (group m "args") [] eq_refl)
    as Hpieces.
  rewrite Forall_forall in Hpieces. specialize (Hpieces p Hp).
  destruct (split1_cases (Str.chr "=") p) as [[_ E] | (k2 & v2 & -> & Hk & E)];
    rewrite E in Hs; inversion Hs; subst.
  rewrite forallb_app in Hpieces. apply andb_prop in Hpieces.
  destruct Hpieces as [Hkc _].
  unfold Str.strip, no_char. repeat split.
  - apply strip_both_trimmed.
  - apply forallb_rstrip, forallb_lstrip; exact Hk.
  - apply forallb_rstrip, forallb_lstrip; exact Hkc.
Qed.

(** X9: every key of an ipython call is stripped: it neither starts nor
    ends with white space, and it holds neither an equals sign nor a
    comma. *)
Theorem ipython_keys (text : str) (info : ExtractedToolCallInformation)
        (call : ToolCall) (d : dict) (k : str) (v : value) :
  search u _JSON_RE text = None ->
  extract_tool_calls u text request = Return info ->
  In call (tool_calls info) -> arguments call = VDict d -> In (k, v) d ->
  trimmed Str.isspace k /\ no_char (Str.chr "=") k = true
  /\ no_char (Str.chr ",") k = true.
Proof.
  intros Hj H Hc Ha Hin.
  destruct (search u _PY_RE text) as [m|] eqn:Hm.
  - exact (proj1 (ipython_entry text m info call d k v Hj Hm H Hc Ha Hin)).
  - unfold extract_tool_calls in H. rewrite Hj, Hm in H.
    inversion H; subst. contradiction.
Qed.

(** X10: every value of an ipython call is a string, a list or a
    dictionary, never a number, a boolean or [None]; and a string value
    neither starts nor ends with a quote, single or double. *)
Theorem ipython_values (text : str) (info : ExtractedToolCallInformation)
        (call : ToolCall) (d : dict) (k : str) (v : value) :
  search u _JSON_RE text = None ->
  extract_tool_calls u text request = Return info ->
  In call (tool_calls info) -> arguments call = VDict d -> In (k, v) d ->
  is_container_or_str v /\ forall s, v = VStr s -> trimmed is_quote s.
Proof.
  intros Hj H Hc Ha Hin.
  destruct (search u _PY_RE text) as [m|] eqn:Hm.
  - exact (proj2 (ipython_entry text m info call d k v Hj Hm H Hc Ha Hin)).
  - unfold extract_tool_calls in H. rewrite Hj, Hm in H.
    inversion H; subst. contradiction.
Qed.


(** X13: in the ipython form, when the capture is not blank and one of
    its pieces holds no equals sign (a positional argument, a trailing
    comma, a comma inside a value), the extraction raises and returns no
    outcome. *)
Theorem piece_without_equals_raises (text : str) (m : Match) (p : str) :
  search u _JSON_RE text = None ->
  search u _PY_RE text = Some m ->
  Str.strip (group m "args") <> [] ->
  In p (Str.split (Str.chr ",") (group m "args")) ->
  no_char (Str.chr "=") p = true ->
  exists e, extract_tool_calls u text request = Raise e.
Proof.
  intros Hj Hm Hs Hp Hn. unfold extract_tool_calls. rewrite Hj, Hm.
  cbv zeta.
  destruct (Str.strip (group m "args")) as [|c t]; [congruence|].
  destruct (for_pairs_no_equals _ [] p Hp Hn) as [e ->].
  exists e; reflexivity.
Qed.

(** X11: the last piece of the capture decides the value of its key: the
    returned dictionary holds the stripped key of that piece with the value
    assigned from that piece. *)
Theorem last_piece_wins (text : str) (m : Match) (pairs : list str)
        (p k v : str) (info : ExtractedToolCallInformation) :
  search u _JSON_RE text = None ->
  search u _PY_RE text = Some m ->
  Str.split (Str.chr ",") (group m "args") = pairs ++ [p] ->
  Str.split1 (Str.chr "=") p = [k; v] ->
  extract_tool_calls u text request = Return info ->
  exists d x,
    info = mkInfo true [mkToolCall (group m "name") (VDict d)] None
    /\ assigned_value v = Return x
    /\ In (Str.strip k, x) d.
Proof.
  intros Hj Hm Hsp Hkv H.
  destruct (ipython_outcome text m info Hj Hm H) as (d & -> & Hd).
  destruct Hd as [[Hb _] | [_ Hf]].
  { apply StrFacts.blank_pieces in Hb. destruct Hb as [E1 E2].
    rewrite E1 in Hsp. destruct pairs as [|? [|? ?]]; try discriminate.
    inversion Hsp; subst p. rewrite E2 in Hkv. discriminate. }
  rewrite Hsp, for_pairs_app in Hf.
  destruct (for_pairs pairs []) as [d0|e]; [|discriminate].
  cbn [bind] in Hf. rewrite for_pairs_cons, Hkv in Hf.
  fold (assigned_value v) in Hf.
  destruct (assigned_value v) as [x|e]; [|discriminate].
  cbn in Hf. inversion Hf; subst d.
  exists (dict_set d0 (Str.strip k) x), x.
  repeat split. apply dict_set_has.
Qed.

End More.

(** ** The gate *)

Section Gate.

Variable u : N -> bool.
Variable request : ChatCompletionRequest.

Lemma called_outcome (text : str) (info : ExtractedToolCallInformation) :
  extract_tool_calls u text request = Return info ->
  tools_called info = true ->
  exists call, info = mkInfo true [call] None.
Proof.
  intros H Hc.
  destruct (search u _JSON_RE text) as [m|] eqn:Ej.
  { destruct (structured_outcome u request text m info Ej H) as (d & _ & _ & ->).
    eauto. }
  destruct (search u _PY_RE text) as [m|] eqn:Ep.
  { destruct (ipython_outcome u request text m info Ej Ep H) as (d & -> & _).
    eauto. }
  unfold extract_tool_calls in H. rewrite Ej, Ep in H.
  inversion H; subst. discriminate.
Qed.

Lemma gate_eq (prev cur delta : str) (pids cids dids : list Z) :
  extract_tool_calls_streaming u prev cur delta pids cids dids request
  = if Str.contains _EOT cur || Str.contains _EOM cur
    then info <- extract_tool_calls u cur request ;
         if negb (tools_called info) then Return None
         else Return (Some (mkDelta (py "assistant") None (tool_calls info)))
    else Return None.
Proof.
  unfold extract_tool_calls_streaming.
  destruct (Str.contains _EOT cur), (Str.contains _EOM cur); reflexivity.
Qed.

(** X15: the streaming extraction emits a message exactly when the text
    holds a marker and the extraction of the text returns a call; the
    message has the role [assistant], no content and that one call. *)
Theorem streaming_emits_iff (prev cur delta : str) (pids cids dids : list Z)
        (dm : DeltaMessage) :
  extract_tool_calls_streaming u prev cur delta pids cids dids request
  = Return (Some dm)
  <-> (Str.contains _EOT cur = true \/ Str.contains _EOM cur = true)
      /\ exists call,
          extract_tool_calls u cur request = Return (mkInfo true [call] None)
          /\ dm = mkDelta (py "assistant") None [call].
Proof.
  rewrite gate_eq. split.
  - intros H.
    destruct (Str.contains _EOT cur || Str.contains _EOM cur) eqn:Em;
      [|discriminate].
    split; [apply orb_prop; exact Em|].
    destruct (extract_tool_calls u cur request) as [info|e] eqn:E;
      [|discriminate].
    cbn [bind] in H.
    destruct (tools_called info) eqn:Hc; [|discriminate].
    destruct (called_outcome cur info E Hc) as [call ->].
    exists call. cbn in H. inversion H. auto.
  - intros [Hm (call & E & ->)].
    replace (Str.contains _EOT cur || Str.contains _EOM cur) with true
      by (destruct Hm as [-> | ->]; [reflexivity | rewrite orb_true_r; reflexivity]).
    rewrite E. reflexivity.
Qed.

(** X16: the streaming extraction raises exactly when the text holds a
    marker and the extraction of the text raises, with the same exception:
    an error of the decoder is not swallowed by the gate. *)
Theorem streaming_raises_iff (prev cur delta : str) (pids cids dids : list Z)
        (e : exn) :
  extract_tool_calls_streaming u prev cur delta pids cids dids request
  = Raise e
  <-> (Str.contains _EOT cur = true \/ Str.contains _EOM cur = true)
      /\ extract_tool_calls u cur request = Raise e.
Proof.
  rewrite gate_eq. split.
  - intros H.
    destruct (Str.contains _EOT cur || Str.contains _EOM cur) eqn:Em;
      [|discriminate].
    split; [apply orb_prop; exact Em|].
    destruct (extract_tool_calls u cur request) as [info|e'] eqn:E.
    + cbn [bind] in H. destruct (negb (tools_called info)); discriminate.
    + cbn [bind] in H. inversion H; reflexivity.
  - intros [Hm E].
    replace (Str.contains _EOT cur || Str.contains _EOM cur) with true
      by (destruct Hm as [-> | ->]; [reflexivity | rewrite orb_true_r; reflexivity]).
    rewrite E. reflexivity.
Qed.

(** The accumulated texts grow. *)
Lemma buffer_grows (deltas : list str) (i j : nat) :
  i <= j -> exists t, buffer deltas j = buffer deltas i ++ t.
Proof.
  intros Hij. unfold buffer.
  exists (List.concat (skipn (S i) (firstn (S j) deltas))).
  rewrite <- concat_app. f_equal.
  rewrite <- (firstn_skipn (S i) (firstn (S j) deltas)) at 1.
  f_equal. rewrite firstn_firstn. f_equal. lia.
Qed.

(** X17: once an accumulated text of a stream holds a marker, the gate
    stays open: every later evaluation is the extraction of the text
    accumulated so far, emitted when it holds a call. *)
Theorem stream_after_marker (deltas : list str) (i j : nat) (d : str) :
  i <= j ->
  nth_error deltas j = Some d ->
  Str.contains _EOT (buffer deltas i) = true
  \/ Str.contains _EOM (buffer deltas i) = true ->
  nth_error (stream u [] deltas request) j
  = Some (info <- extract_tool_calls u (buffer deltas j) request ;
          if negb (tools_called info) then Return None
          else Return (Some (mkDelta (py "assistant") None
                                     (tool_calls info)))).
Proof.
  intros Hij Hd Hm.
  rewrite (stream_nth u request deltas [] j d Hd). f_equal.
  rewrite gate_eq. cbn [app]. fold (buffer deltas j).
  destruct (buffer_grows deltas i j Hij) as [t Ht].
  assert (Hj : Str.contains _EOT (buffer deltas j)
               || Str.contains _EOM (buffer deltas j) = true).
  { rewrite Ht.
    destruct Hm as [Hm | Hm]; rewrite (contains_app_l _ _ t Hm);
      [reflexivity | apply orb_true_r]. }
  rewrite Hj. reflexivity.
Qed.

End Gate.

(** ** One result per turn *)

Lemma last_in (l : str) (d : N) : l <> [] -> In (last l d) l.
Proof.
  intros H. destruct (exists_last H) as (l' & a & ->).
  rewrite last_last. apply in_or_app. right. left. reflexivity.
Qed.

Lemma last_app_r (a b : str) (d : N) : b <> [] -> last (a ++ b) d = last b d.
Proof.
  intros H. destruct (exists_last H) as (b' & x & ->).
  rewrite app_assoc, !last_last. reflexivity.
Qed.

Lemma contains_at_end (sub pre : str) : Str.contains sub (pre ++ sub) = true.
Proof.
  replace (pre ++ sub) with (pre ++ sub ++ [])
    by (rewrite app_nil_r; reflexivity).
  apply contains_intro.
Qed.

(** A marker ends in the only [>] it holds, so a marker that lies in a
    text ending in a marker either lies before that one or is that one. *)
Lemma proper_prefix_no_marker (call T M b r : str) :
  T = _EOT \/ T = _EOM ->
  M = _EOT \/ M = _EOM ->
  Str.contains _EOT call = false ->
  Str.contains _EOM call = false ->
  b ++ r = call ++ T ->
  r <> [] ->
  Str.contains M b = false.
Proof.
  intros HT HM Hc1 Hc2 Heq Hr.
  assert (HcM : Str.contains M call = false)
    by (destruct HM as [-> | ->]; assumption).
  assert (HlastM : M <> [] /\ last M 0%N = 62%N)
    by (destruct HM as [-> | ->]; split; (discriminate || reflexivity)).
  assert (HT62 : ~ In 62%N (removelast T)).
  { destruct HT as [-> | ->]; cbv; intuition discriminate. }
  destruct (Str.contains M b) eqn:E; [exfalso | reflexivity].
  apply contains_inv in E. destruct E as (x & y & ->).
  rewrite <- app_assoc, <- app_assoc in Heq.
  rewrite (app_assoc x M) in Heq.
  apply app_eq_app in Heq.
  destruct Heq as [l [[E1 E2] | [E1 E2]]].
  - (* the occurrence reaches into the final marker *)
    destruct l as [|c l].
    + rewrite app_nil_r in E1. rewrite <- E1 in HcM.
      rewrite contains_at_end in HcM. discriminate.
    + apply HT62. rewrite E2.
      assert (Hyr : y ++ r <> []) by (destruct y; [exact Hr | discriminate]).
      rewrite removelast_app by exact Hyr.
      apply in_or_app. left.
      assert (Hl : last (c :: l) 0%N = 62%N).
      { rewrite <- (last_app_r call (c :: l)) by discriminate.
        rewrite <- E1. rewrite last_app_r by apply HlastM. apply HlastM. }
      rewrite <- Hl. apply last_in. discriminate.
  - (* the occurrence lies in the call *)
    rewrite E1, <- app_assoc, contains_intro in HcM. discriminate.
Qed.

Section Once.

Variable u : N -> bool.
Variable request : ChatCompletionRequest.

Lemma stream_app (l1 l2 : list str) :
  forall prev,
    stream u prev (l1 ++ l2) request
    = stream u prev l1 request
      ++ stream u (prev ++ List.concat l1) l2 request.
Proof.
  induction l1 as [|d l1 IH]; intros prev; simpl.
  - rewrite app_nil_r. reflexivity.
  - rewrite IH, app_assoc. reflexivity.
Qed.

Lemma stream_quiet (l : list str) :
  forall prev,
    (forall i d, nth_error l i = Some d ->
                 Str.contains _EOT (prev ++ List.concat (firstn (S i) l))
                 = false
                 /\ Str.contains _EOM (prev ++ List.concat (firstn (S i) l))
                    = false) ->
    stream u prev l request = repeat (Return None) (List.length l).
Proof.
  induction l as [|d l IH]; intros prev H; [reflexivity|].
  simpl. f_equal.
  - destruct (H 0 d eq_refl) as [H1 H2]. simpl in H1, H2.
    rewrite app_nil_r in H1, H2. apply gate_closed; assumption.
  - apply IH. intros i d' Hi.
    specialize (H (S i) d' Hi). simpl in H.
    rewrite <- app_assoc. exact H.
Qed.

Lemma concat_nonempty (l : list str) :
  l <> [] -> Forall (fun d => d <> []) l -> List.concat l <> [].
Proof.
  intros Hl Hf. destruct l as [|d l]; [congruence|].
  inversion Hf; subst. simpl. destruct d; [congruence | discriminate].
Qed.

(** X18: for a turn made of a call text that holds no marker and the
    marker that ends it, streamed in deltas none of which is empty, and
    whose extraction returns a call: every evaluation but the last returns
    no output, and the last one emits the call. *)
Theorem stream_fires_once (call marker : str) (deltas : list str)
        (c : ToolCall) :
  marker = _EOT \/ marker = _EOM ->
  Str.contains _EOT call = false ->
  Str.contains _EOM call = false ->
  List.concat deltas = call ++ marker ->
  Forall (fun d => d <> []) deltas ->
  extract_tool_calls u (call ++ marker) request
  = Return (mkInfo true [c] None) ->
  stream u [] deltas request
  = repeat (Return None) (List.length deltas - 1)
    ++ [Return (Some (mkDelta (py "assistant") None [c]))].
Proof.
  intros HT Hc1 Hc2 Hcat Hne He.
  assert (Hd : deltas <> []).
  { intros ->. simpl in Hcat.
    destruct HT as [-> | ->]; destruct call; discriminate. }
  destruct (exists_last Hd) as (init & final & ->).
  rewrite stream_app, length_app. simpl List.length.
  replace (List.length init + 1 - 1) with (List.length init) by lia.
  rewrite concat_app in Hcat. simpl in Hcat. rewrite app_nil_r in Hcat.
  apply Forall_app in Hne. destruct Hne as [Hinit Hfinal].
  inversion Hfinal as [|? ? Hf _]; subst.
  f_equal.
  - apply stream_quiet. intros i d Hi. cbn [app].
    assert (Hsplit : List.concat (firstn (S i) init)
                     ++ (List.concat (skipn (S i) init) ++ final)
                     = call ++ marker).
    { rewrite app_assoc, <- concat_app, firstn_skipn. exact Hcat. }
    assert (Hr : List.concat (skipn (S i) init) ++ final <> []).
    { destruct (List.concat (skipn (S i) init)); [exact Hf | discriminate]. }
    split.
    + eapply proper_prefix_no_marker with (T := marker); eauto.
    + eapply proper_prefix_no_marker with (T := marker); eauto.
  - simpl. f_equal. cbn [app]. rewrite Hcat.
    apply (gate_open u request [] (call ++ marker) final [] [] []
                     (mkInfo true [c] None)); [|exact He|reflexivity].
    destruct HT as [-> | ->]; [left | right]; apply contains_at_end.
Qed.

End Once.

(** ** Turns that are extracted *)

Section Turns.

Variable u : N -> bool.
Variable request : ChatCompletionRequest.

Ltac greedy_here :=
  match goal with
  | |- greedy ?p ?t ?K = _ =>
      let Hg := fresh "Hg" in
      assert (Hg : greedy p t K = K t) by reflexivity;
      rewrite Hg; clear Hg; cbv beta
  end.

Lemma lazy_skip_to (p : N -> bool) (k : str -> answer) (l t : str) :
  forallb p l = true ->
  (forall l1 c l2, l = l1 ++ c :: l2 -> k (c :: l2 ++ t) = None) ->
  lazy p (l ++ t) k = lazy p t k.
Proof.
  induction l as [|c l IH]; simpl; intros Hl Hk; [reflexivity|].
  apply andb_prop in Hl. destruct Hl as [Hc Hl].
  rewrite (Hk [] c l eq_refl), Hc.
  apply IH; [exact Hl|].
  intros l1 c' l2 ->. apply (Hk (c :: l1) c' l2). reflexivity.
Qed.

Lemma ipython_call_match (name args rest : str) :
  name <> [] ->
  forallb (in_cset u Word) name = true ->
  no_char 41 args = true ->
  match_here u _PY_RE
             (_PYTHON_TAG ++ name ++ py ".call(" ++ args ++ py ")" ++ rest)
  = Some (rest, [("args"%string, args); ("name"%string, name)]).
Proof.
  intros Hn Hw Ha. unfold match_here, _PY_RE.
  cbn [run].
  change (py "<|python_tag|>") with _PYTHON_TAG.
  rewrite ReFacts.strip_prefix_app.
  destruct name as [|x name]; [congruence|].
  cbn [forallb] in Hw. apply andb_prop in Hw. destruct Hw as [Hx Hw].
  cbn [app]. rewrite Hx.
  apply ReFacts.greedy_app; [exact Hw|].
  greedy_here.
  rewrite app_comm_cons, ReFacts.firstn_app_sub.
  rewrite ReFacts.strip_prefix_app.
  rewrite lazy_skip_to.
  - apply ReFacts.lazy_now.
    rewrite ReFacts.strip_prefix_app.
    rewrite ReFacts.firstn_app_sub. reflexivity.
  - apply forallb_forall. reflexivity.
  - intros l1 c l2 ->. unfold no_char in Ha.
    rewrite forallb_app in Ha. apply andb_prop in Ha.
    destruct Ha as [_ Ha]. cbn [forallb] in Ha.
    apply andb_prop in Ha. destruct Ha as [Hc _].
    change (py ")") with [41%N]. cbn [app Str.strip_prefix].
    rewrite N.eqb_sym. destruct (N.eqb c 41); [discriminate | reflexivity].
Qed.

(** X6: a text that starts with the marker [<|python_tag|>], a name of
    word characters, [.call(], an argument text without a closing
    parenthesis and a closing parenthesis, and in which [_JSON_RE] finds
    nothing, is extracted as the call of that name with that argument text
    decoded. *)
Theorem ipython_turn (name args rest : str) :
  name <> [] ->
  forallb (in_cset u Word) name = true ->
  no_char 41 args = true ->
  search u _JSON_RE
         (_PYTHON_TAG ++ name ++ py ".call(" ++ args ++ py ")" ++ rest)
  = None ->
  extract_tool_calls
    u (_PYTHON_TAG ++ name ++ py ".call(" ++ args ++ py ")" ++ rest) request
  = (kwargs <-
       match Str.strip args with
       | _ :: _ => for_pairs (Str.split (Str.chr ",") args) []
       | [] => Return []
       end ;
     Return (mkInfo true [mkToolCall name (VDict kwargs)] None)).
Proof.
  intros Hn Hw Ha Hj.
  pose proof (ReFacts.search_from_here u _PY_RE 0 _ _ _
                (ipython_call_match name args rest Hn Hw Ha)) as Hp.
  unfold extract_tool_calls. rewrite Hj. unfold search. rewrite Hp.
  change (group _ "args") with args. change (group _ "name") with name.
  cbv zeta.
  destruct (match Str.strip args with
            | [] => Return []
            | _ :: _ => for_pairs (Str.split (Str.chr ",") args) []
            end); reflexivity.
Qed.


Lemma split1_from_at (sep : N) (k v : str) :
  no_char sep k = true ->
  forall cur, Str.split1_from sep cur (k ++ sep :: v) = [rev cur ++ k; v].
Proof.
  unfold no_char. induction k as [|c k IH]; simpl; intros Hk cur.
  - rewrite N.eqb_refl, app_nil_r. reflexivity.
  - apply andb_prop in Hk. destruct Hk as [Hc Hk].
    destruct (N.eqb c sep); [discriminate|].
    rewrite (IH Hk). simpl. rewrite <- app_assoc. reflexivity.
Qed.

Lemma strip_nonblank (s : str) (c : N) :
  In c s -> Str.isspace c = false -> Str.strip s <> [].
Proof.
  intros Hin Hc Hs. apply StrFacts.strip_blank in Hs.
  rewrite forallb_forall in Hs. rewrite (Hs c Hin) in Hc. discriminate.
Qed.

(** X7: such a call with one argument [k=v], where the argument text
    holds neither a comma nor a closing parenthesis and [k] holds no equals
    sign, is extracted as the dictionary of the one entry of the stripped
    key and the value assigned from [v]. *)
Theorem single_argument_turn (name k v rest : str) :
  name <> [] ->
  forallb (in_cset u Word) name = true ->
  no_char (Str.chr ")") (k ++ py "=" ++ v) = true ->
  no_char (Str.chr ",") (k ++ py "=" ++ v) = true ->
  no_char (Str.chr "=") k = true ->
  search u _JSON_RE
         (_PYTHON_TAG ++ name ++ py ".call(" ++ (k ++ py "=" ++ v) ++ py ")"
                      ++ rest) = None ->
  extract_tool_calls
    u (_PYTHON_TAG ++ name ++ py ".call(" ++ (k ++ py "=" ++ v) ++ py ")"
                   ++ rest) request
  = (x <- assigned_value v ;
     Return (mkInfo true [mkToolCall name (VDict [(Str.strip k, x)])] None)).
Proof.
  intros Hn Hw Hp Hc Hk Hj.
  pose proof (ReFacts.search_from_here u _PY_RE 0 _ _ _
                (ipython_call_match name _ rest Hn Hw Hp)) as Hm.
  unfold extract_tool_calls. rewrite Hj. unfold search. rewrite Hm.
  change (group _ "args") with (k ++ py "=" ++ v).
  change (group _ "name") with name. cbv zeta.
  destruct (Str.strip (k ++ py "=" ++ v)) as [|c0 t0] eqn:Es.
  { exfalso. revert Es. apply (strip_nonblank _ 61%N); [|reflexivity].
    apply in_or_app. right. left. reflexivity. }
  unfold Str.split. rewrite StrFacts.split_from_one by exact Hc.
  cbn [rev app]. rewrite for_pairs_cons.
  unfold Str.split1. change (py "=" ++ v) with (Str.chr "=" :: v).
  rewrite split1_from_at by exact Hk. cbn [rev app].
  fold (assigned_value v). destruct (assigned_value v) as [x|e]; reflexivity.
Qed.

(** The structured form *)

Lemma JSON_RE_skip (pre s : str) :
  no_char 123 pre = true ->
  forall pos,
    search_from u _JSON_RE pos (pre ++ s)
    = search_from u _JSON_RE (pos + List.length pre) s.
Proof.
  unfold no_char. induction pre as [|c pre IH]; intros Hpre pos.
  - simpl. rewrite Nat.add_0_r. reflexivity.
  - cbn [forallb] in Hpre. apply andb_prop in Hpre.
    destruct Hpre as [Hc Hpre].
    cbn [app search_from]. rewrite ReFacts.JSON_RE_at_brace.
    + rewrite (IH Hpre). f_equal. simpl. lia.
    + destruct (N.eqb c 123); [discriminate | reflexivity].
Qed.

Lemma double_brace_absent (body : str) :
  Str.contains (py "}}") (py "{" ++ body ++ py "}") = false ->
  forall l1 c l2 t,
    body = l1 ++ c :: l2 ->
    Str.strip_prefix (py "}}") (c :: l2 ++ py "}" ++ t) = None.
Proof.
  intros H l1 c l2 t ->.
  destruct (Str.strip_prefix (py "}}") (c :: l2 ++ py "}" ++ t))
    as [r|] eqn:E; [exfalso | reflexivity].
  assert (Hs : exists r', c :: l2 ++ py "}" = py "}}" ++ r').
  { change (py "}}") with [125%N; 125%N] in *.
    change (py "}") with [125%N] in *.
    cbn [Str.strip_prefix] in E.
    destruct (N.eqb_spec 125 c) as [<-|]; [|discriminate].
    destruct l2 as [|c2 l2]; cbn [app] in *.
    - exists []. reflexivity.
    - destruct (N.eqb_spec 125 c2) as [<-|]; [|discriminate].
      eexists. reflexivity. }
  destruct Hs as [r' Hs].
  replace (py "{" ++ (l1 ++ c :: l2) ++ py "}")
    with ((py "{" ++ l1) ++ py "}}" ++ r') in H.
  - rewrite contains_intro in H. discriminate.
  - rewrite <- Hs, <- !app_assoc. reflexivity.
Qed.

Lemma structured_match (w1 w2 name w3 w4 w5 w6 body post : str) :
  forallb Str.isspace (w1 ++ w2 ++ w3 ++ w4 ++ w5 ++ w6) = true ->
  name <> [] ->
  no_char 34 name = true ->
  Str.contains (py "}}") (py "{" ++ body ++ py "}") = false ->
  match_here u _JSON_RE
    (py "{`name`" ++ w1 ++ py ":" ++ w2 ++ py "`" ++ name ++ py "`"
        ++ w3 ++ py "," ++ w4 ++ py "`parameters`" ++ w5 ++ py ":" ++ w6
        ++ (py "{" ++ body ++ py "}") ++ py "}" ++ post)
  = Some (post, [("params"%string, py "{" ++ body ++ py "}");
                 ("name"%string, name)]).
Proof.
  intros Hw Hn Hq Hb.
  rewrite !forallb_app in Hw.
  repeat (apply andb_prop in Hw; let H := fresh "Hw" in destruct Hw as [H Hw]).
  unfold match_here, _JSON_RE. cbn [run].
  rewrite ReFacts.strip_prefix_app.
  apply ReFacts.greedy_app; [assumption|]. greedy_here.
  rewrite ReFacts.strip_prefix_app.
  apply ReFacts.greedy_app; [assumption|]. greedy_here.
  rewrite ReFacts.strip_prefix_app.
  destruct name as [|x name]; [congruence|].
  unfold no_char in Hq. cbn [forallb] in Hq.
  apply andb_prop in Hq. destruct Hq as [Hx Hq].
  cbn [app]. change (in_cset u (NotChr 34) x) with (negb (N.eqb x 34)).
  rewrite Hx.
  apply ReFacts.greedy_app; [exact Hq|]. greedy_here.
  rewrite app_comm_cons, ReFacts.firstn_app_sub.
  rewrite ReFacts.strip_prefix_app.
  apply ReFacts.greedy_app; [assumption|]. greedy_here.
  rewrite ReFacts.strip_prefix_app.
  apply ReFacts.greedy_app; [assumption|]. greedy_here.
  rewrite ReFacts.strip_prefix_app.
  apply ReFacts.greedy_app; [assumption|]. greedy_here.
  rewrite ReFacts.strip_prefix_app.
  apply ReFacts.greedy_app; [assumption|]. greedy_here.
  rewrite <- !app_assoc.
  rewrite ReFacts.strip_prefix_app.
  rewrite lazy_skip_to.
  - apply ReFacts.lazy_now.
    rewrite !ReFacts.strip_prefix_app.
    replace (py "{" ++ body ++ py "}" ++ py "}" ++ post)
      with ((py "{" ++ body ++ py "}") ++ py "}" ++ post)
      by (rewrite <- !app_assoc; reflexivity).
    rewrite ReFacts.firstn_app_sub. reflexivity.
  - apply forallb_forall. reflexivity.
  - intros l1 c l2 Heq.
    pose proof (double_brace_absent body Hb l1 c l2 (py "}" ++ post) Heq)
      as Hd.
    destruct (Str.strip_prefix (py "}") (c :: l2 ++ py "}" ++ py "}" ++ post))
      as [s1|] eqn:E1; [|reflexivity].
    destruct (Str.strip_prefix (py "}") s1) as [s2|] eqn:E2; [|reflexivity].
    apply strip_prefix_inv in E1. apply strip_prefix_inv in E2. subst s1.
    rewrite E1 in Hd.
    change (py "}" ++ py "}" ++ s2) with (py "}}" ++ s2) in Hd.
    rewrite ReFacts.strip_prefix_app in Hd. discriminate.
Qed.

(** X5: a text whose first opening brace starts a structured call (the
    name not empty and without a double quote, white space only between
    the parts, the parameters from an opening to a closing brace without
    two closing braces in a row) is extracted as the call of that name with
    [json.loads] of those parameters, or raises what [json.loads]
    raises. *)
Theorem structured_turn (pre w1 w2 name w3 w4 w5 w6 body post : str) :
  no_char (Str.chr "{") pre = true ->
  forallb Str.isspace (w1 ++ w2 ++ w3 ++ w4 ++ w5 ++ w6) = true ->
  name <> [] ->
  no_char 34 name = true ->
  Str.contains (py "}}") (py "{" ++ body ++ py "}") = false ->
  extract_tool_calls
    u (pre ++ py "{`name`" ++ w1 ++ py ":" ++ w2 ++ py "`" ++ name
           ++ py "`" ++ w3 ++ py "," ++ w4 ++ py "`parameters`" ++ w5
           ++ py ":" ++ w6 ++ (py "{" ++ body ++ py "}") ++ py "}" ++ post)
    request
  = (arguments <- Json.loads (py "{" ++ body ++ py "}") ;
     Return (mkInfo true [mkToolCall name arguments] None)).
Proof.
  intros Hpre Hw Hn Hq Hb.
  unfold extract_tool_calls, search.
  rewrite (JSON_RE_skip pre _ Hpre 0).
  rewrite (ReFacts.search_from_here u _JSON_RE _ _ _ _
             (structured_match w1 w2 name w3 w4 w5 w6 body post Hw Hn Hq Hb)).
  change (group _ "params") with (py "{" ++ body ++ py "}").
  change (group _ "name") with name. cbv zeta.
  destruct (Json.loads (py "{" ++ body ++ py "}")); reflexivity.
Qed.

End Turns.


(** ** Calls of plain arguments *)

Section Plain.

Variable u : N -> bool.
Variable request : ChatCompletionRequest.

Lemma for_pairs_plain (pairs : list str) :
  forallb plain_piece pairs = true ->
  forall kwargs, exists d, for_pairs pairs kwargs = Return d.
Proof.
  induction pairs as [|p pairs IH]; intros Hp kwargs; [eexists; reflexivity|].
  cbn [forallb] in Hp. apply andb_prop in Hp. destruct Hp as [Hp Hr].
  rewrite for_pairs_cons. unfold plain_piece in Hp.
  destruct (Str.split1 (Str.chr "=") p) as [|k [|v [|? ?]]];
    try discriminate.
  unfold assigned_value.
  destruct (Str.startswith (py "{") (Str.strip v)
            || Str.startswith (py "[") (Str.strip v)); [discriminate|].
  cbn [bind]. apply IH; exact Hr.
Qed.

Lemma for_pairs_plain_values (pairs : list str) (d : dict) :
  forallb plain_piece pairs = true ->
  for_pairs pairs [] = Return d ->
  forall k v, In (k, v) d -> exists s, v = VStr s.
Proof.
  intros Hp Hf.
  refine (for_pairs_invariant
            (fun d => forall k v, In (k, v) d -> exists s, v = VStr s)
            pairs _ [] d _ Hf); [|intros ? ? []].
  intros d0 p k v x Hin Hs Hv IH k' v' Hin'.
  apply dict_set_in in Hin'. destruct Hin' as [Hin' | [_ ->]]; [eauto|].
  rewrite forallb_forall in Hp. specialize (Hp p Hin).
  unfold plain_piece in Hp. rewrite Hs in Hp.
  unfold assigned_value in Hv.
  destruct (Str.startswith (py "{") (Str.strip v)
            || Str.startswith (py "[") (Str.strip v)); [discriminate|].
  inversion Hv. eauto.
Qed.

(** X20: when the call found is an ipython call all of whose pieces hold
    an equals sign and a value that, stripped, starts neither with a brace
    nor with a bracket, the extraction raises nothing: it returns the call
    with a dictionary all of whose values are strings. *)
Theorem plain_arguments_return (text : str) (m : Match) :
  search u _JSON_RE text = None ->
  search u _PY_RE text = Some m ->
  forallb plain_piece (Str.split (Str.chr ",") (group m "args")) = true ->
  exists d,
    extract_tool_calls u text request
    = Return (mkInfo true [mkToolCall (group m "name") (VDict d)] None)
    /\ forall k v, In (k, v) d -> exists s, v = VStr s.
Proof.
  intros Hj Hm Hp. unfold extract_tool_calls. rewrite Hj, Hm. cbv zeta.
  destruct (Str.strip (group m "args")) as [|c t].
  - exists []. split; [reflexivity | intros ? ? []].
  - destruct (for_pairs_plain _ Hp []) as [d Hd].
    exists d. rewrite Hd. split; [reflexivity|].
    exact (for_pairs_plain_values _ d Hp Hd).
Qed.

End Plain.

(** ** The further properties at concrete turns *)

Lemma plain_text_returned_witness :
  Str.contains (py "{`name`") plain_text = false
  /\ Str.contains _PYTHON_TAG plain_text = false
  /\ extract_tool_calls (fun _ => false) plain_text (mkRequest false)
     = Return (mkInfo false [] (Some plain_text)).
Proof.
  assert (H1 : Str.contains (py "{`name`") plain_text = false)
    by reflexivity.
  assert (H2 : Str.contains _PYTHON_TAG plain_text = false) by reflexivity.
  split; [exact H1 | split; [exact H2 |]].
  exact (plain_text_returned (fun _ => false) (mkRequest false)
                             plain_text H1 H2).
Defined.

Lemma outcome_shape_witness :
  extract_tool_calls (fun _ => false) weather_text (mkRequest false)
  = Return (mkInfo true
              [mkToolCall (py "get_weather")
                          (VDict [(py "city", VStr (py "Boston"))])]
              None)
  /\ ((exists call d,
          mkInfo true
                 [mkToolCall (py "get_weather")
                             (VDict [(py "city", VStr (py "Boston"))])]
                 None
          = mkInfo true [call] None
          /\ arguments call = VDict d /\ NoDup (keys d))
      \/ mkInfo true
                [mkToolCall (py "get_weather")
                            (VDict [(py "city", VStr (py "Boston"))])]
                None
         = mkInfo false [] (Some weather_text)).
Proof.
  assert (He : extract_tool_calls (fun _ => false) weather_text
                                  (mkRequest false)
               = Return (mkInfo true
                           [mkToolCall
                              (py "get_weather")
                              (VDict [(py "city", VStr (py "Boston"))])]
                           None))
    by (vm_compute; reflexivity).
  split; [exact He|].
  exact (outcome_shape (fun _ => false) (mkRequest false) weather_text _ He).
Defined.

Lemma structured_match_shape_witness :
  search (fun _ => false) _JSON_RE nested_text
  = Some (mkMatch 0 43 [("params"%string, py "{`a`: {`b`: 1}");
                        ("name"%string, py "f")])
  /\ Str.contains (py "}}") (py "{`a`: {`b`: 1}") = false.
Proof.
  assert (Hm : search (fun _ => false) _JSON_RE nested_text
               = Some (mkMatch 0 43 [("params"%string, py "{`a`: {`b`: 1}");
                                     ("name"%string, py "f")]))
    by (vm_compute; reflexivity).
  split; [exact Hm|].
  destruct (structured_match_shape (fun _ => false) nested_text _ Hm)
    as (pre & w1 & w2 & w3 & w4 & w5 & w6 & body & post
        & _ & _ & _ & _ & _ & _ & H).
  exact H.
Defined.

Lemma ipython_match_shape_witness :
  search (fun _ => false) _PY_RE paren_text
  = Some (mkMatch 0 30 [("args"%string, py "msg=`(hi");
                        ("name"%string, py "f")])
  /\ forallb (fun c => negb (N.eqb c 41)) (py "msg=`(hi") = true.
Proof.
  assert (Hm : search (fun _ => false) _PY_RE paren_text
               = Some (mkMatch 0 30 [("args"%string, py "msg=`(hi");
                                     ("name"%string, py "f")]))
    by (vm_compute; reflexivity).
  split; [exact Hm|].
  destruct (ipython_match_shape (fun _ => false) paren_text _ Hm)
    as (pre & post & _ & _ & _ & _ & H).
  exact H.
Defined.

Lemma groups_always_set_witness :
  search (fun _ => false) _JSON_RE weather_text
  = Some (mkMatch 5 62 [("params"%string, py "{`city`: `Boston`}");
                        ("name"%string, py "get_weather")])
  /\ bound "name" [("params"%string, py "{`city`: `Boston`}");
                   ("name"%string, py "get_weather")]
  /\ bound "params" [("params"%string, py "{`city`: `Boston`}");
                     ("name"%string, py "get_weather")].
Proof.
  assert (Hm : search (fun _ => false) _JSON_RE weather_text
               = Some (mkMatch 5 62
                               [("params"%string, py "{`city`: `Boston`}");
                                ("name"%string, py "get_weather")]))
    by (vm_compute; reflexivity).
  split; [exact Hm|].
  exact (proj1 (groups_always_set (fun _ => false) weather_text _) Hm).
Defined.

Lemma structured_turn_witness :
  no_char (Str.chr "{") (py "Sure.") = true
  /\ Str.contains (py "}}") (py "{" ++ py "`city`: `Boston`" ++ py "}")
     = false
  /\ extract_tool_calls
       (fun _ => false)
       (py "Sure." ++ py "{`name`" ++ [] ++ py ":" ++ py " " ++ py "`"
           ++ py "get_weather" ++ py "`" ++ [] ++ py "," ++ py " "
           ++ py "`parameters`" ++ [] ++ py ":" ++ py " "
           ++ (py "{" ++ py "`city`: `Boston`" ++ py "}") ++ py "}"
           ++ py "<|eot_id|>")
       (mkRequest false)
     = (arguments <- Json.loads (py "{" ++ py "`city`: `Boston`" ++ py "}") ;
        Return (mkInfo true [mkToolCall (py "get_weather") arguments] None)).
Proof.
  assert (H1 : no_char (Str.chr "{") (py "Sure.") = true) by reflexivity.
  assert (H2 : Str.contains (py "}}")
                            (py "{" ++ py "`city`: `Boston`" ++ py "}")
               = false) by reflexivity.
  split; [exact H1 | split; [exact H2 |]].
  apply (structured_turn (fun _ => false) (mkRequest false));
    [exact H1 | reflexivity | discriminate | reflexivity | exact H2].
Defined.

Lemma ipython_turn_witness :
  search (fun _ => false) _JSON_RE
         (_PYTHON_TAG ++ py "f" ++ py ".call(" ++ py "a=1, a=2" ++ py ")"
                      ++ py "<|eom_id|>") = None
  /\ extract_tool_calls
       (fun _ => false)
       (_PYTHON_TAG ++ py "f" ++ py ".call(" ++ py "a=1, a=2" ++ py ")"
                    ++ py "<|eom_id|>")
       (mkRequest false)
     = (kwargs <-
          match Str.strip (py "a=1, a=2") with
          | _ :: _ => for_pairs (Str.split (Str.chr ",") (py "a=1, a=2")) []
          | [] => Return []
          end ;
        Return (mkInfo true [mkToolCall (py "f") (VDict kwargs)] None)).
Proof.
  assert (Hj : search (fun _ => false) _JSON_RE
                      (_PYTHON_TAG ++ py "f" ++ py ".call(" ++ py "a=1, a=2"
                                   ++ py ")" ++ py "<|eom_id|>") = None)
    by (vm_compute; reflexivity).
  split; [exact Hj|].
  apply (ipython_turn (fun _ => false) (mkRequest false));
    [discriminate | reflexivity | reflexivity | exact Hj].
Defined.

Lemma single_argument_turn_witness :
  search (fun _ => false) _JSON_RE
         (_PYTHON_TAG ++ py "get" ++ py ".call("
                      ++ (py "city" ++ py "=" ++ py "`Boston`") ++ py ")"
                      ++ py "<|eom_id|>") = None
  /\ assigned_value (py "`Boston`") = Return (VStr (py "Boston"))
  /\ extract_tool_calls
       (fun _ => false)
       (_PYTHON_TAG ++ py "get" ++ py ".call("
                    ++ (py "city" ++ py "=" ++ py "`Boston`") ++ py ")"
                    ++ py "<|eom_id|>")
       (mkRequest false)
     = (x <- assigned_value (py "`Boston`") ;
        Return (mkInfo true
                       [mkToolCall (py "get")
                                   (VDict [(Str.strip (py "city"), x)])]
                       None)).
Proof.
  assert (Hj : search (fun _ => false) _JSON_RE
                      (_PYTHON_TAG ++ py "get" ++ py ".call("
                                   ++ (py "city" ++ py "=" ++ py "`Boston`")
                                   ++ py ")" ++ py "<|eom_id|>") = None)
    by (vm_compute; reflexivity).
  split; [exact Hj | split; [vm_compute; reflexivity |]].
  apply (single_argument_turn (fun _ => false) (mkRequest false));
    [discriminate | reflexivity | reflexivity | reflexivity | reflexivity
     | exact Hj].
Defined.

Lemma empty_call_turn_witness :
  search (fun _ => false) _JSON_RE (py "<|eom_id|>") = None
  /\ extract_tool_calls
       (fun _ => false)
       (_PYTHON_TAG ++ py "ping" ++ py ".call(" ++ py " " ++ py ")"
                    ++ py "<|eom_id|>")
       (mkRequest false)
     = Return (mkInfo true [mkToolCall (py "ping") (VDict [])] None).
Proof.
  assert (Hj : search (fun _ => false) _JSON_RE (py "<|eom_id|>") = None)
    by (vm_compute; reflexivity).
  split; [exact Hj|].
  apply (empty_call_turn (fun _ => false) (mkRequest false));
    [discriminate | reflexivity | reflexivity | exact Hj].
Defined.

Lemma ipython_entries_info :
  extract_tool_calls (fun _ => false) args_text (mkRequest false)
  = Return (mkInfo true [args_call] None).
Proof. vm_compute. reflexivity. Qed.

Lemma ipython_keys_witness :
  search (fun _ => false) _JSON_RE args_text = None
  /\ trimmed Str.isspace (py "a")
  /\ no_char (Str.chr "=") (py "a") = true
  /\ no_char (Str.chr ",") (py "a") = true.
Proof.
  assert (Hj : search (fun _ => false) _JSON_RE args_text = None)
    by (vm_compute; reflexivity).
  split; [exact Hj|].
  apply (ipython_keys (fun _ => false) (mkRequest false) args_text
                      (mkInfo true [args_call] None) args_call args_dict
                      (py "a") (VStr (py "x")) Hj ipython_entries_info).
  - left; reflexivity.
  - reflexivity.
  - left; reflexivity.
Defined.

Lemma ipython_values_witness :
  search (fun _ => false) _JSON_RE args_text = None
  /\ is_container_or_str (VStr (py "x"))
  /\ trimmed is_quote (py "x").
Proof.
  assert (Hj : search (fun _ => false) _JSON_RE args_text = None)
    by (vm_compute; reflexivity).
  assert (Hin : In (py "a", VStr (py "x")) args_dict)
    by (left; reflexivity).
  split; [exact Hj|].
  pose proof (ipython_values (fun _ => false) (mkRequest false) args_text
                             (mkInfo true [args_call] None) args_call
                             args_dict (py "a") (VStr (py "x")) Hj
                             ipython_entries_info (or_introl eq_refl)
                             eq_refl Hin) as H.
  split; [exact (proj1 H) | exact (proj2 H (py "x") eq_refl)].
Defined.

Lemma last_piece_wins_witness :
  search (fun _ => false) _JSON_RE repeated_text = None
  /\ Str.split (Str.chr ",") (py "a=1, a=2") = [py "a=1"] ++ [py " a=2"]
  /\ Str.split1 (Str.chr "=") (py " a=2") = [py " a"; py "2"]
  /\ extract_tool_calls (fun _ => false) repeated_text (mkRequest false)
     = Return (mkInfo true
                 [mkToolCall (py "f") (VDict [(py "a", VStr (py "2"))])]
                 None)
  /\ exists d x,
      mkInfo true [mkToolCall (py "f") (VDict [(py "a", VStr (py "2"))])]
             None
      = mkInfo true [mkToolCall (py "f") (VDict d)] None
      /\ assigned_value (py "2") = Return x
      /\ In (Str.strip (py " a"), x) d.
Proof.
  assert (Hj : search (fun _ => false) _JSON_RE repeated_text = None)
    by (vm_compute; reflexivity).
  assert (Hm : search (fun _ => false) _PY_RE repeated_text
               = Some (mkMatch 0 30 [("args"%string, py "a=1, a=2");
                                     ("name"%string, py "f")]))
    by (vm_compute; reflexivity).
  assert (Hs : Str.split (Str.chr ",") (py "a=1, a=2")
               = [py "a=1"] ++ [py " a=2"]) by (vm_compute; reflexivity).
  assert (Hk : Str.split1 (Str.chr "=") (py " a=2") = [py " a"; py "2"])
    by (vm_compute; reflexivity).
  assert (He : extract_tool_calls (fun _ => false) repeated_text
                                  (mkRequest false)
               = Return (mkInfo true
                           [mkToolCall (py "f")
                                       (VDict [(py "a", VStr (py "2"))])]
                           None))
    by (vm_compute; reflexivity).
  split; [exact Hj | split; [exact Hs | split; [exact Hk | split;
                                                 [exact He |]]]].
  exact (last_piece_wins (fun _ => false) (mkRequest false) repeated_text
                         _ [py "a=1"] (py " a=2") (py " a") (py "2") _
                         Hj Hm Hs Hk He).
Defined.


Lemma piece_without_equals_raises_witness :
  search (fun _ => false) _JSON_RE positional_text = None
  /\ search (fun _ => false) _PY_RE positional_text
     = Some (mkMatch 0 23 [("args"%string, py "5"); ("name"%string, py "f")])
  /\ no_char (Str.chr "=") (py "5") = true
  /\ exists e,
      extract_tool_calls (fun _ => false) positional_text (mkRequest false)
      = Raise e.
Proof.
  assert (Hj : search (fun _ => false) _JSON_RE positional_text = None)
    by (vm_compute; reflexivity).
  assert (Hm : search (fun _ => false) _PY_RE positional_text
               = Some (mkMatch 0 23 [("args"%string, py "5");
                                     ("name"%string, py "f")]))
    by (vm_compute; reflexivity).
  assert (Hn : no_char (Str.chr "=") (py "5") = true) by reflexivity.
  split; [exact Hj | split; [exact Hm | split; [exact Hn |]]].
  apply (piece_without_equals_raises (fun _ => false) (mkRequest false)
                                     positional_text _ (py "5") Hj Hm).
  - vm_compute. discriminate.
  - left; reflexivity.
  - exact Hn.
Defined.

Lemma malformed_value_raises_witness :
  search (fun _ => false) _JSON_RE search_text = None
  /\ Str.split1 (Str.chr "=") (py " tags=[`lang`") = [py " tags"; py "[`lang`"]
  /\ Json.loads (Str.strip (py "[`lang`")) = Raise JSONDecodeError
  /\ exists e,
      extract_tool_calls (fun _ => false) search_text (mkRequest false)
      = Raise e.
Proof.
  assert (Hj : search (fun _ => false) _JSON_RE search_text = None)
    by (vm_compute; reflexivity).
  assert (Hm : search (fun _ => false) _PY_RE search_text
               = Some (mkMatch 0 82
                         [("args"%string,
                           py "query=`rust ownership`, limit=5, tags=[`lang`,`safety`]");
                          ("name"%string, py "search")]))
    by (vm_compute; reflexivity).
  assert (Hk : Str.split1 (Str.chr "=") (py " tags=[`lang`")
               = [py " tags"; py "[`lang`"]) by (vm_compute; reflexivity).
  assert (Hl : Json.loads (Str.strip (py "[`lang`")) = Raise JSONDecodeError)
    by (vm_compute; reflexivity).
  split; [exact Hj | split; [exact Hk | split; [exact Hl |]]].
  apply (malformed_value_raises (fun _ => false) (mkRequest false)
                                search_text _ (py " tags=[`lang`")
                                (py " tags") (py "[`lang`") Hj Hm).
  - vm_compute. right; right; left; reflexivity.
  - exact Hk.
  - reflexivity.
  - exact Hl.
Defined.

Lemma streaming_emits_iff_witness :
  Str.contains _EOT weather_text = true
  /\ extract_tool_calls_streaming (fun _ => false) [] weather_text
                                  weather_text [] [] [] (mkRequest false)
     = Return (Some (mkDelta (py "assistant") None
                       [mkToolCall (py "get_weather")
                                   (VDict [(py "city", VStr (py "Boston"))])])).
Proof.
  assert (Ht : Str.contains _EOT weather_text = true) by reflexivity.
  split; [exact Ht|].
  apply (proj2 (streaming_emits_iff (fun _ => false) (mkRequest false)
                                    [] weather_text weather_text [] [] [] _)).
  split; [left; exact Ht|].
  eexists. split; [vm_compute; reflexivity | reflexivity].
Defined.

Lemma streaming_raises_iff_witness :
  Str.contains _EOT bad_json_text = true
  /\ extract_tool_calls (fun _ => false) bad_json_text (mkRequest false)
     = Raise JSONDecodeError
  /\ extract_tool_calls_streaming (fun _ => false) [] bad_json_text
                                  bad_json_text [] [] [] (mkRequest false)
     = Raise JSONDecodeError.
Proof.
  assert (Ht : Str.contains _EOT bad_json_text = true) by reflexivity.
  assert (He : extract_tool_calls (fun _ => false) bad_json_text
                                  (mkRequest false) = Raise JSONDecodeError)
    by (vm_compute; reflexivity).
  split; [exact Ht | split; [exact He |]].
  apply (proj2 (streaming_raises_iff (fun _ => false) (mkRequest false)
                                     [] bad_json_text bad_json_text
                                     [] [] [] JSONDecodeError)).
  split; [left; exact Ht | exact He].
Defined.

Lemma stream_after_marker_witness :
  Str.contains _EOT (buffer marker_turn 0) = true
  /\ nth_error (stream (fun _ => false) [] marker_turn (mkRequest false)) 1
     = Some (info <- extract_tool_calls (fun _ => false)
                                        (buffer marker_turn 1)
                                        (mkRequest false) ;
             if negb (tools_called info) then Return None
             else Return (Some (mkDelta (py "assistant") None
                                        (tool_calls info)))).
Proof.
  assert (Ht : Str.contains _EOT (buffer marker_turn 0) = true)
    by reflexivity.
  split; [exact Ht|].
  apply (stream_after_marker (fun _ => false) (mkRequest false)
                             marker_turn 0 1 (py "<|eot_id|>")).
  - auto.
  - reflexivity.
  - left; exact Ht.
Defined.

Lemma stream_fires_once_witness :
  List.concat weather_deltas
  = py "Sure.{`name`: `get_weather`, `parameters`: {`city`: `Boston`}}"
       ++ _EOT
  /\ stream (fun _ => false) [] weather_deltas (mkRequest false)
     = repeat (Return None) (List.length weather_deltas - 1)
       ++ [Return (Some (mkDelta (py "assistant") None
                           [mkToolCall
                              (py "get_weather")
                              (VDict [(py "city", VStr (py "Boston"))])]))].
Proof.
  assert (Hc : List.concat weather_deltas
               = py "Sure.{`name`: `get_weather`, `parameters`: {`city`: `Boston`}}"
                    ++ _EOT) by (vm_compute; reflexivity).
  split; [exact Hc|].
  apply (stream_fires_once
           (fun _ => false) (mkRequest false)
           (py "Sure.{`name`: `get_weather`, `parameters`: {`city`: `Boston`}}")
           _EOT weather_deltas).
  - left; reflexivity.
  - reflexivity.
  - reflexivity.
  - exact Hc.
  - repeat constructor; discriminate.
  - vm_compute. reflexivity.
Defined.

Lemma plain_arguments_return_witness :
  search (fun _ => false) _JSON_RE repeated_text = None
  /\ forallb plain_piece (Str.split (Str.chr ",") (py "a=1, a=2")) = true
  /\ exists d,
      extract_tool_calls (fun _ => false) repeated_text (mkRequest false)
      = Return (mkInfo true [mkToolCall (py "f") (VDict d)] None).
Proof.
  assert (Hj : search (fun _ => false) _JSON_RE repeated_text = None)
    by (vm_compute; reflexivity).
  assert (Hm : search (fun _ => false) _PY_RE repeated_text
               = Some (mkMatch 0 30 [("args"%string, py "a=1, a=2");
                                     ("name"%string, py "f")]))
    by (vm_compute; reflexivity).
  assert (Hp : forallb plain_piece
                       (Str.split (Str.chr ",") (py "a=1, a=2")) = true)
    by (vm_compute; reflexivity).
  split; [exact Hj | split; [exact Hp |]].
  destruct (plain_arguments_return (fun _ => false) (mkRequest false)
                                   repeated_text _ Hj Hm Hp) as (d & He & _).
  exists d. exact He.
Defined.
